(** * Chat-response orchestration of the assistant backend

    Shallow embedding of [api.py] (the request handlers), [config.py]
    (settings and quality thresholds), [metrics.py] (the four RAGAS gauges)
    and [logging_qa.py] (the low-quality log record).

    Handlers are written in a small program monad: every call to a
    collaborator ([DbFeedbackInterface], [validation], [rate_limiter],
    [translator], [guardrail], [prepare], the HTTP client, the RAGAS
    scorer) is a [Call] node answered by the environment, either with a
    value or with a raised exception; gauge updates and log records are
    [Emit] nodes.  Running a handler threads the environment's state and
    records the trace of events, so that statements about "what was
    called, in which order, with which arguments" are statements about
    that trace. *)

From Stdlib Require Import String List ZArith Bool Floats Lia.
Import ListNotations.
Local Open Scope string_scope.
Local Open Scope list_scope.

Set Implicit Arguments.

(** ** Python values used by the handlers *)

(** Timestamps ([datetime.datetime]) are opaque; only their identity matters. *)
Definition Datetime := Z.

(** Exceptions.  [HTTPException] is the one [api.py] raises itself (and the
    one [validation] and [rate_limiter] raise); everything else is a Python
    exception named by its class. *)
Inductive exn : Type :=
| HTTPException (status_code : Z) (detail : string)
| PyError (class_name : string) (arg : string).

Definition KeyError (key : string) : exn := PyError "KeyError" key.
Definition AttributeError (attr : string) : exn := PyError "AttributeError" attr.

(** [x in (s1, s2, ...)]. *)
Definition in_tuple (x : string) (t : list string) : bool :=
  existsb (String.eqb x) t.

(** [enumerate(l)]. *)
Definition enumerate {A : Type} (l : list A) : list (nat * A) :=
  combine (seq 0 (length l)) l.

(** ** config.py *)

Record Settings : Type := {
  knowledge_graph_api_url : string;
  max_conversation_turns : Z;
  guardrail_enabled : bool
}.

(** [FAITHFULNESS_THRESHOLD = 0.8] and [RELEVANCE_THRESHOLD = 0.8]: the
    binary64 value Python reads for the literal [0.8]. *)
Definition FAITHFULNESS_THRESHOLD : float := 0x1.999999999999ap-1%float.
Definition RELEVANCE_THRESHOLD : float := 0x1.999999999999ap-1%float.

(** ** metrics.py *)

Inductive gauge : Type :=
| faithfulness_gauge
| answer_relevance_gauge
| context_precision_gauge
| similarity_gauge.

Definition gauge_name (g : gauge) : string :=
  match g with
  | faithfulness_gauge => "ragas_faithfulness"
  | answer_relevance_gauge => "ragas_answer_relevance"
  | context_precision_gauge => "ragas_context_precision"
  | similarity_gauge => "ragas_similarity"
  end.

(** ** Schemas and rows *)

(** [schemas.ChatMessage]: the body of a create-response request. *)
Record ChatMessage : Type := {
  cm_content : string;
  cm_stream : bool
}.

(** One entry of a [ChatResponse.references] list; the handler reads
    [reference.id] and [reference.type]. *)
Record Reference : Type := {
  ref_id : string;
  ref_type : string
}.

(** [schemas.ChatResponse]. *)
Record ChatResponse : Type := {
  cr_id : string;
  cr_createdAt : Datetime;
  cr_input : string;
  cr_output : string;
  cr_references : list Reference
}.

Definition set_output (c : ChatResponse) (o : string) : ChatResponse :=
  {| cr_id := cr_id c; cr_createdAt := cr_createdAt c; cr_input := cr_input c;
     cr_output := o; cr_references := cr_references c |}.

Definition set_id_createdAt (c : ChatResponse) (i : string) (t : Datetime)
  : ChatResponse :=
  {| cr_id := i; cr_createdAt := t; cr_input := cr_input c;
     cr_output := cr_output c; cr_references := cr_references c |}.

(** The user row; the handlers read [user_obj.meta_user_id]. *)
Record User : Type := {
  meta_user_id : string;
  user_email : string
}.

(** The dict returned by [translator.translate]; a field is [None] when the
    key is absent, which is what [dict.get] returns. *)
Record Translation : Type := {
  source_lang : option string;
  translated_text : option string
}.

(** The dict returned by [guardrail.guardrails]; ["message"] is read with
    [guardrail_result["message"]], which raises [KeyError] when absent. *)
Record GuardrailResult : Type := {
  relevant : bool;
  message : option string
}.

(** The dict returned by [evaluate_with_ragas]: three keys read with
    [ragas_scores[...]] and ["similarity"] read with [.get]. *)
Record RagasScores : Type := {
  s_faithfulness : option float;
  s_answer_relevance : option float;
  s_context_precision : option float;
  s_similarity : option float
}.

(** One element of the conversation history and the [message] of the JSON
    body posted to the knowledge-graph engine. *)
Record Message : Type := {
  msg_role : string;
  msg_content : string
}.

Record PostData : Type := {
  pd_message : Message;
  pd_stream : bool;
  pd_temperature : float;
  pd_max_tokens : Z;
  pd_conversation_history : list Message
}.

(** The entry written by [logging_qa.log_low_quality_response]. *)
Record LowQualityEntry : Type := {
  lq_event : string;
  lq_question : string;
  lq_answer : string;
  lq_faithfulness : float;
  lq_answer_relevance : float;
  lq_context : option string
}.

(** Effects that return nothing and cannot fail on these arguments: setting
    a gauge, and the two [logging.warning] records (the f-string of line
    305 is kept structured, the JSON line of [log_low_quality_response] is
    kept as its entry). *)
Inductive output : Type :=
| GaugeSet (g : gauge) (v : float)
| WarningLowRagasScore (faithfulness answer_relevance : float)
                       (question answer : string)
| WarningJson (entry : LowQualityEntry).

(** [schemas.RatingObject]: [rating] is an optional member of the rating
    enumeration. *)
Record RatingObject (RatingValue : Type) : Type := {
  rating : option RatingValue
}.

(** How a handler ends: with a returned value or a raised exception. *)
Inductive outcome (R : Type) : Type :=
| Returned (r : R)
| Raised (e : exn).

Arguments Returned {R} r.
Arguments Raised {R} e.

Section Api.

(** The engine payload ([response.json()]), the product catalogue
    ([load_products.get_products]) and the values of the rating enumeration
    are defined outside the four source files; the handlers only pass them
    on. *)
Context {Json Products RatingValue : Type}.

(** The response row ([DbFeedbackInterface.insert_response] and the
    getters); [r_rating] is the nullable rating. *)
Record DbResponse : Type := {
  r_id : string;
  r_chat_id : string;
  r_createdAt : Datetime;
  r_user_input : string;
  r_query : string;
  r_output : string;
  r_original_response : Json;
  r_rating : option RatingValue
}.

(** ** Calls to collaborators *)

(** [PostSearchLocal] stands for lines 247-250: [client.post], then
    [raise_for_status] and [response.json()]; a transport error, a non-2xx
    status and an undecodable body are the exceptions of that call. *)
Inductive call : Type :=
| InsertUser (email : string)
| GetUserByEmail (email : string)
| ValidateChatExistenceAccess (chat_id meta_user_id : string)
| CheckRateLimit (email : string)
| Translate (text target : string)
| Guardrails (query : option string)
| RequestPrepare (query : option string) (all_products : Products)
| GetResponsesByChatId (chat_id : string) (limit offset : Z) (order_by : string)
| PostSearchLocal (url : string) (post_data : PostData)
| ResponsePrepare (user_input : string) (response : Json)
                  (unique_products : Products) (response_id : string)
| FormatReferences (output_text : string)
| InsertResponse (chat_id user_input query output_text : string)
                 (original_response : Json) (rating_value : option RatingValue)
| InsertResponseReference (reference_id reference_type : string) (idx : nat)
                          (response_id : string)
| EvaluateWithRagas (question answer : string)
| GetResponseById (response_id : string)
| UpdateResponseRating (response_id : string) (rating_value : option RatingValue).

(** What each call returns when it does not raise. *)
Definition resp (c : call) : Type :=
  match c with
  | InsertUser _ => option User
  | GetUserByEmail _ => option User
  | ValidateChatExistenceAccess _ _ => unit
  | CheckRateLimit _ => unit
  | Translate _ _ => Translation
  | Guardrails _ => GuardrailResult
  | RequestPrepare _ _ => string
  | GetResponsesByChatId _ _ _ _ => list DbResponse
  | PostSearchLocal _ _ => Json
  | ResponsePrepare _ _ _ _ => ChatResponse
  | FormatReferences _ => string
  | InsertResponse _ _ _ _ _ _ => DbResponse
  | InsertResponseReference _ _ _ _ => unit
  | EvaluateWithRagas _ _ => RagasScores
  | GetResponseById _ => option DbResponse
  | UpdateResponseRating _ _ => option DbResponse
  end.

(** ** The program monad *)

Inductive prog (R : Type) : Type :=
| Ret (r : R)
| Raise (e : exn)
| Call (c : call) (k : resp c -> prog R)
| Emit (o : output) (k : prog R).

Arguments Ret {R} r.
Arguments Raise {R} e.
Arguments Call {R} c k.
Arguments Emit {R} o k.

Fixpoint bind {A B : Type} (m : prog A) (f : A -> prog B) : prog B :=
  match m with
  | Ret a => f a
  | Raise e => Raise e
  | Call c k => Call c (fun r => bind (k r) f)
  | Emit o k => Emit o (bind k f)
  end.

Definition perform (c : call) : prog (resp c) := Call c (fun r => Ret r).
Definition emit (o : output) : prog unit := Emit o (Ret tt).

Notation "x <- m ;; k" := (bind m (fun x => k))
  (at level 61, m at next level, right associativity).
Notation "m ;;; k" := (bind m (fun _ => k))
  (at level 61, right associativity).

(** [for x in l: body(x)]. *)
Fixpoint for_ {A : Type} (l : list A) (body : A -> prog unit) : prog unit :=
  match l with
  | [] => Ret tt
  | x :: rest => body x ;;; for_ rest body
  end.

(** [d[key]] on a dict whose key may be absent. *)
Definition getitem {A : Type} (key : string) (v : option A) : prog A :=
  match v with
  | Some a => Ret a
  | None => Raise (KeyError key)
  end.

(** [user_obj.meta_user_id] on a value that may be [None]. *)
Definition get_meta_user_id (user_obj : option User) : prog string :=
  match user_obj with
  | Some u => Ret (meta_user_id u)
  | None => Raise (AttributeError "meta_user_id")
  end.

(** ** logging_qa.py *)

Definition log_low_quality_response (question answer : string)
    (faithfulness answer_relevance : float) (context : option string)
  : prog unit :=
  let log_entry :=
    {| lq_event := "low_quality_response";
       lq_question := question;
       lq_answer := answer;
       lq_faithfulness := faithfulness;
       lq_answer_relevance := answer_relevance;
       lq_context := context |} in
  emit (WarningJson log_entry).

(** ** api.py: create_chat_response *)

Definition sentinel_id : string := "00000000-0000-0000-0000-000000000000".

Definition unsupported_language_message : string :=
  "Language not supported. Supported languages are English, German and French".

(** Lines 222-235: the loop appends, for each old response taken in
    reversed order, a user entry and then an assistant entry.  The
    [model_validate] of line 231 builds a value the loop never reads; rows
    are typed here, so it has nothing to reject. *)
Definition build_conversation_history (old_responses : list DbResponse)
  : list Message :=
  fold_left
    (fun conversation_history response =>
       (conversation_history
          ++ [{| msg_role := "user"; msg_content := r_query response |}])
          ++ [{| msg_role := "assistant"; msg_content := r_output response |}])
    (rev old_responses) [].

(** Lines 289-309: scoring, gauges, threshold check. *)
Definition score_and_log (request : ChatMessage) (chat_response : ChatResponse)
  : prog unit :=
  ragas_scores <-
    perform (EvaluateWithRagas (cm_content request) (cr_output chat_response)) ;;
  faithfulness <- getitem "faithfulness" (s_faithfulness ragas_scores) ;;
  answer_relevance <- getitem "answer_relevance" (s_answer_relevance ragas_scores) ;;
  context_precision <- getitem "context_precision" (s_context_precision ragas_scores) ;;
  let similarity := s_similarity ragas_scores in
  emit (GaugeSet faithfulness_gauge faithfulness) ;;;
  emit (GaugeSet answer_relevance_gauge answer_relevance) ;;;
  emit (GaugeSet context_precision_gauge context_precision) ;;;
  match similarity with
  | Some s => emit (GaugeSet similarity_gauge s)
  | None => Ret tt
  end ;;;
  if PrimFloat.ltb faithfulness FAITHFULNESS_THRESHOLD
     || PrimFloat.ltb answer_relevance RELEVANCE_THRESHOLD
  then
    emit (WarningLowRagasScore faithfulness answer_relevance
            (cm_content request) (cr_output chat_response)) ;;;
    log_low_quality_response (cm_content request) (cr_output chat_response)
      faithfulness answer_relevance None
  else Ret tt.

(** Lines 218-311: what the handler does once the language and guardrail
    gates are passed.  [source_lang] is the detected language (one of en,
    de, fr here) and [query] the text chosen at lines 189/191. *)
Definition answer_turn (settings : Settings) (uuid4 : string)
    (chatId : string) (request : ChatMessage)
    (unique_products all_products : Products)
    (source_lang : string) (query : option string) : prog ChatResponse :=
  query <- perform (RequestPrepare query all_products) ;;
  let temp_response_id := uuid4 in
  old_responses <-
    perform (GetResponsesByChatId chatId (max_conversation_turns settings)
               0%Z "desc") ;;
  let conversation_history := build_conversation_history old_responses in
  let path := "/search/local" in
  let search_local_url := String.append (knowledge_graph_api_url settings) path in
  let post_data :=
    {| pd_message := {| msg_role := "assistant"; msg_content := query |};
       pd_stream := cm_stream request;
       pd_temperature := 0.5%float;
       pd_max_tokens := 200%Z;
       pd_conversation_history := conversation_history |} in
  knowledge_graph_response <- perform (PostSearchLocal search_local_url post_data) ;;
  chat_response <-
    perform (ResponsePrepare (cm_content request) knowledge_graph_response
               unique_products temp_response_id) ;;
  chat_response <-
    (if negb (String.eqb source_lang "en") then
       translation_to_original <-
         perform (Translate (cr_output chat_response) source_lang) ;;
       Ret (set_output chat_response
              (match translated_text translation_to_original with
               | Some t => t
               | None => cr_output chat_response
               end))
     else Ret chat_response) ;;
  formatted <- perform (FormatReferences (cr_output chat_response)) ;;
  let chat_response := set_output chat_response formatted in
  response_obj <-
    perform (InsertResponse chatId (cr_input chat_response) query
               (cr_output chat_response) knowledge_graph_response None) ;;
  let chat_response :=
    set_id_createdAt chat_response (r_id response_obj) (r_createdAt response_obj) in
  for_ (enumerate (cr_references chat_response))
    (fun '(idx, reference) =>
       perform (InsertResponseReference (ref_id reference) (ref_type reference)
                  idx (r_id response_obj))) ;;;
  score_and_log request chat_response ;;;
  Ret chat_response.

(** How lines 174-216 end when they raise nothing: with an early [return]
    of a short-circuit response, or by falling through to line 218 with
    the detected language and the query chosen at line 189 or 191. *)
Inductive gate : Type :=
| ShortCircuit (chat_response : ChatResponse)
| Proceed (source_lang : string) (query : option string).

(** Lines 205-216: the optional guardrail gate. *)
Definition guardrail_gate (settings : Settings) (now : Datetime)
    (request : ChatMessage) (lang : string) (query : option string)
  : prog gate :=
  if guardrail_enabled settings then
    guardrail_result <- perform (Guardrails query) ;;
    if negb (relevant guardrail_result) then
      output_text <- getitem "message" (message guardrail_result) ;;
      Ret (ShortCircuit {| cr_id := sentinel_id;
                           cr_createdAt := now;
                           cr_input := cm_content request;
                           cr_output := output_text;
                           cr_references := [] |})
    else Ret (Proceed lang query)
  else Ret (Proceed lang query).

(** Lines 174-216: user upsert, access validation, rate limit, language
    detection and the guardrail gate.  [now] is the value of
    [datetime.datetime.now()] for this turn. *)
Definition admit_turn (settings : Settings) (now : Datetime)
    (chatId : string) (request : ChatMessage) (email : string) : prog gate :=
  inserted <- perform (InsertUser email) ;;
  user_obj <-
    match inserted with
    | Some u => Ret (Some u)
    | None => perform (GetUserByEmail email)
    end ;;
  uid <- get_meta_user_id user_obj ;;
  perform (ValidateChatExistenceAccess chatId uid) ;;;
  perform (CheckRateLimit email) ;;;
  translation <- perform (Translate (cm_content request) "en") ;;
  let unsupported :=
    Ret (ShortCircuit {| cr_id := sentinel_id;
                         cr_createdAt := now;
                         cr_input := cm_content request;
                         cr_output := unsupported_language_message;
                         cr_references := [] |}) in
  match source_lang translation with
  | Some lang =>
      if String.eqb lang "en" then
        guardrail_gate settings now request lang (Some (cm_content request))
      else if in_tuple lang ["de"; "fr"] then
        guardrail_gate settings now request lang (translated_text translation)
      else unsupported
  | None => unsupported
  end.

(** The handler.  [uuid4] is the value of [str(uuid.uuid4())] for this
    turn; the tracing span and the session header only label the trace and
    are left out. *)
Definition create_chat_response (settings : Settings) (now : Datetime)
    (uuid4 : string) (chatId : string) (request : ChatMessage)
    (email : string) (products : Products * Products) : prog ChatResponse :=
  let '(unique_products, all_products) := products in
  admitted <- admit_turn settings now chatId request email ;;
  match admitted with
  | ShortCircuit chat_response => Ret chat_response
  | Proceed lang query =>
      answer_turn settings uuid4 chatId request unique_products all_products
        lang query
  end.

(** [get_chat_responses], lines 124-140.  [model_validate] turns each row
    into a [ChatResponse]; that conversion belongs to the schema layer and
    is the parameter [to_chat_response]. *)
Definition get_chat_responses
    (to_chat_response : DbResponse -> ChatResponse)
    (chatId : string) (limit offset : Z) (sort email : string)
  : prog (list ChatResponse) :=
  inserted <- perform (InsertUser email) ;;
  user_obj <-
    match inserted with
    | Some u => Ret (Some u)
    | None => perform (GetUserByEmail email)
    end ;;
  uid <- get_meta_user_id user_obj ;;
  perform (ValidateChatExistenceAccess chatId uid) ;;;
  db_responses <- perform (GetResponsesByChatId chatId limit offset sort) ;;
  Ret (map to_chat_response db_responses).

(** ** api.py: listing and rating handlers *)

(** [get_rating], lines 337-351.  [RatingObject.model_validate] of a stored
    rating is the object holding that rating. *)
Definition get_rating (chatId responseId email : string)
  : prog (RatingObject RatingValue) :=
  user_obj <- perform (GetUserByEmail email) ;;
  uid <- get_meta_user_id user_obj ;;
  perform (ValidateChatExistenceAccess chatId uid) ;;;
  response_obj <- perform (GetResponseById responseId) ;;
  match response_obj with
  | None => Raise (HTTPException 404 "Response not found")
  | Some response_obj =>
      match r_rating response_obj with
      | None => Ret {| rating := None |}
      | Some v => Ret {| rating := Some v |}
      end
  end.

(** [rating_request.rating.value]: [AttributeError] when the request carries
    no rating. *)
Definition rating_value_of (rating_request : RatingObject RatingValue)
  : prog RatingValue :=
  match rating rating_request with
  | Some v => Ret v
  | None => Raise (AttributeError "value")
  end.

(** [create_rating], lines 381-394. *)
Definition create_rating (chatId responseId : string)
    (rating_request : RatingObject RatingValue) (email : string)
  : prog (RatingObject RatingValue) :=
  user_obj <- perform (GetUserByEmail email) ;;
  uid <- get_meta_user_id user_obj ;;
  perform (ValidateChatExistenceAccess chatId uid) ;;;
  v <- rating_value_of rating_request ;;
  response_obj <- perform (UpdateResponseRating responseId (Some v)) ;;
  match response_obj with
  | None => Raise (HTTPException 404 "Response not found")
  | Some response_obj => Ret {| rating := r_rating response_obj |}
  end.

(** [update_rating], lines 424-437: the same body as [create_rating]. *)
Definition update_rating (chatId responseId : string)
    (rating_request : RatingObject RatingValue) (email : string)
  : prog (RatingObject RatingValue) :=
  user_obj <- perform (GetUserByEmail email) ;;
  uid <- get_meta_user_id user_obj ;;
  perform (ValidateChatExistenceAccess chatId uid) ;;;
  v <- rating_value_of rating_request ;;
  response_obj <- perform (UpdateResponseRating responseId (Some v)) ;;
  match response_obj with
  | None => Raise (HTTPException 404 "Response not found")
  | Some response_obj => Ret {| rating := r_rating response_obj |}
  end.

(** [delete_rating], lines 461-471. *)
Definition delete_rating (chatId responseId email : string) : prog unit :=
  user_obj <- perform (GetUserByEmail email) ;;
  uid <- get_meta_user_id user_obj ;;
  perform (ValidateChatExistenceAccess chatId uid) ;;;
  response_obj <- perform (UpdateResponseRating responseId None) ;;
  match response_obj with
  | None => Raise (HTTPException 404 "Response not found")
  | Some _ => Ret tt
  end.


(** ** Running a handler against an environment *)

(** One entry of the trace: a call with what the environment answered, or
    an emitted output. *)
Inductive event : Type :=
| Ev (c : call) (r : exn + resp c)
| Out (o : output).

Section Run.

(** The environment: a state and, for each call, an answer (a value or a
    raised exception) and the next state. *)
Variable W : Type.
Variable step : forall c : call, W -> (exn + resp c) * W.

Fixpoint run {R : Type} (p : prog R) (w : W) : outcome R * W * list event :=
  match p with
  | Ret r => (Returned r, w, [])
  | Raise e => (Raised e, w, [])
  | Call c k =>
      match step c w with
      | (inl e, w1) => (Raised e, w1, [Ev c (inl e)])
      | (inr r, w1) =>
          let '(res, w2, tr) := run (k r) w1 in (res, w2, Ev c (inr r) :: tr)
      end
  | Emit o k =>
      let '(res, w1, tr) := run k w in (res, w1, Out o :: tr)
  end.

End Run.

(** ** Reading a trace *)

(** Each view keeps, in order, the events of one kind. *)
Definition the_call (e : event) : list call :=
  match e with
  | Ev c _ => [c]
  | Out _ => []
  end.

Definition the_failure (e : event) : list call :=
  match e with
  | Ev c (inl _) => [c]
  | _ => []
  end.

Definition the_output (e : event) : list output :=
  match e with
  | Ev _ _ => []
  | Out o => [o]
  end.

Definition is_response_persistence (c : call) : bool :=
  match c with
  | InsertResponse _ _ _ _ _ _ => true
  | InsertResponseReference _ _ _ _ => true
  | _ => false
  end.

Definition is_qa_call (c : call) : bool :=
  match c with
  | PostSearchLocal _ _ => true
  | _ => false
  end.

Definition is_translate (c : call) : bool :=
  match c with
  | Translate _ _ => true
  | _ => false
  end.

Definition the_translation (e : event) : list (string * string * Translation) :=
  match e with
  | Ev c r =>
      match c return exn + resp c -> list (string * string * Translation) with
      | Translate text target =>
          fun r => match r with inr t => [(text, target, t)] | inl _ => [] end
      | _ => fun _ => []
      end r
  | Out _ => []
  end.

Definition the_verdict (e : event) : list GuardrailResult :=
  match e with
  | Ev c r =>
      match c return exn + resp c -> list GuardrailResult with
      | Guardrails _ => fun r => match r with inr g => [g] | inl _ => [] end
      | _ => fun _ => []
      end r
  | Out _ => []
  end.

Definition the_history (e : event) : list (list DbResponse) :=
  match e with
  | Ev c r =>
      match c return exn + resp c -> list (list DbResponse) with
      | GetResponsesByChatId _ _ _ _ =>
          fun r => match r with inr l => [l] | inl _ => [] end
      | _ => fun _ => []
      end r
  | Out _ => []
  end.

Definition the_composed (e : event) : list ChatResponse :=
  match e with
  | Ev c r =>
      match c return exn + resp c -> list ChatResponse with
      | ResponsePrepare _ _ _ _ =>
          fun r => match r with inr x => [x] | inl _ => [] end
      | _ => fun _ => []
      end r
  | Out _ => []
  end.

Definition the_inserted_response (e : event) : list DbResponse :=
  match e with
  | Ev c r =>
      match c return exn + resp c -> list DbResponse with
      | InsertResponse _ _ _ _ _ _ =>
          fun r => match r with inr x => [x] | inl _ => [] end
      | _ => fun _ => []
      end r
  | Out _ => []
  end.

Definition the_scoring (e : event) : list (exn + RagasScores) :=
  match e with
  | Ev c r =>
      match c return exn + resp c -> list (exn + RagasScores) with
      | EvaluateWithRagas _ _ => fun r => [r]
      | _ => fun _ => []
      end r
  | Out _ => []
  end.

(** All calls, in order. *)
Definition calls (tr : list event) : list call := flat_map the_call tr.
(** The calls that raised. *)
Definition failed_calls (tr : list event) : list call := flat_map the_failure tr.
(** Gauge updates and log records, in order. *)
Definition outputs (tr : list event) : list output := flat_map the_output tr.
(** The answered [translator.translate] calls: text, target, result. *)
Definition translations (tr : list event) := flat_map the_translation tr.
(** The guardrail's answers. *)
Definition guardrail_verdicts (tr : list event) := flat_map the_verdict tr.
(** The rows [get_responses_by_chat_id] returned. *)
Definition fetched_histories (tr : list event) := flat_map the_history tr.
(** What [prepare.response_prepare] returned. *)
Definition composed (tr : list event) := flat_map the_composed tr.
(** The rows [insert_response] returned. *)
Definition inserted_responses (tr : list event) := flat_map the_inserted_response tr.
(** How the calls to [evaluate_with_ragas] ended. *)
Definition scorings (tr : list event) := flat_map the_scoring tr.

(** The source language the translator reported for the user's text: the
    first answered translation of the turn. *)
Definition detected_source_lang (tr : list event) : option (option string) :=
  match translations tr with
  | (_, _, t) :: _ => Some (source_lang t)
  | [] => None
  end.

(** Line 188 and line 190 together: en, de or fr. *)
Definition supported_language (lang : option string) : bool :=
  match lang with
  | Some l => String.eqb l "en" || in_tuple l ["de"; "fr"]
  | None => false
  end.

(** The calls lines 174-216 can make, and the events they leave. *)
Definition is_gate_call (c : call) : bool :=
  match c with
  | InsertUser _ => true
  | GetUserByEmail _ => true
  | ValidateChatExistenceAccess _ _ => true
  | CheckRateLimit _ => true
  | Translate _ _ => true
  | Guardrails _ => true
  | _ => false
  end.

Definition gate_event (e : event) : bool :=
  match e with
  | Ev c _ => is_gate_call c
  | Out _ => false
  end.

(** The events the loop of lines 281-287 can produce. *)
Definition ref_insert_event (e : event) : bool :=
  match e with
  | Ev (InsertResponseReference _ _ _ _) _ => true
  | _ => false
  end.

(** The [insert_response_reference] calls of lines 281-287 for a list of
    references and the id of the persisted response. *)
Definition reference_inserts (refs : list Reference) (response_id : string)
  : list call :=
  map (fun '(idx, reference) =>
         InsertResponseReference (ref_id reference) (ref_type reference) idx
           response_id)
      (enumerate refs).

(** [True] for the two records a low-quality answer produces. *)
Definition is_low_quality_record (o : output) : bool :=
  match o with
  | GaugeSet _ _ => false
  | WarningLowRagasScore _ _ _ _ => true
  | WarningJson _ => true
  end.

(** ** The persistence gateway *)

(** Modelled from the spec: the chat row of section 3 (identifier, owning
    user identifier, creation timestamp); [app.db] is not among the source
    files. *)
Record Chat : Type := {
  chat_id_of : string;
  chat_owner : string;
  chat_createdAt : Datetime
}.

(** Modelled from the spec: the reference row of section 3 (identifier,
    type tag, ordinal position within a response, owning response). *)
Record DbReference : Type := {
  dr_reference_id : string;
  dr_reference_type : string;
  dr_idx : nat;
  dr_response_id : string
}.

(** Modelled from the spec: the store of section 3, one table per entity in
    insertion order, and a counter from which new identifiers and
    timestamps are drawn. *)
Record Db : Type := {
  users : list User;
  chats : list Chat;
  responses : list DbResponse;
  response_references : list DbReference;
  tick : nat
}.

(** Everything the store holds except the ratings. *)
Definition erase_rating (r : DbResponse) : DbResponse :=
  {| r_id := r_id r; r_chat_id := r_chat_id r; r_createdAt := r_createdAt r;
     r_user_input := r_user_input r; r_query := r_query r;
     r_output := r_output r; r_original_response := r_original_response r;
     r_rating := None |}.

Definition content_of (db : Db)
  : list User * list Chat * list DbResponse * list DbReference :=
  (users db, chats db, map erase_rating (responses db), response_references db).

(** The two history entries one earlier response stands for: a user entry
    with its query, then an assistant entry with its output. *)
Definition history_entries (r : DbResponse) : list Message :=
  [{| msg_role := "user"; msg_content := r_query r |};
   {| msg_role := "assistant"; msg_content := r_output r |}].

Section Gateway.

(** How the gateway names new rows is not specified. *)
Variable new_id : nat -> string.

(** Modelled from the spec: the lookup behind "email uniquely determines
    at most one user row" (section 3). *)
Definition find_user (db : Db) (email : string) : option User :=
  find (fun u => String.eqb (user_email u) email) (users db).

(** Modelled from the spec: [insert_user] of section 4.1 step 1, "resolve
    or create the User record for the identity's email"; a first-seen email
    creates the row, a known email yields [None] and the handler then reads
    the row with [get_user_by_email]. *)
Definition insert_user (db : Db) (email : string) : option User * Db :=
  match find_user db email with
  | Some _ => (None, db)
  | None =>
      let u := {| meta_user_id := new_id (tick db); user_email := email |} in
      (Some u,
       {| users := users db ++ [u]; chats := chats db;
          responses := responses db;
          response_references := response_references db;
          tick := S (tick db) |})
  end.

(** Modelled from the spec: [get_user_by_email], the row with that email. *)
Definition get_user_by_email (db : Db) (email : string) : option User :=
  find_user db email.

(** Modelled from the spec: the access validator of section 4.2, [NotFound]
    (404) when the chat row is absent, [AccessDenied] (403) when it is
    owned by a different user. *)
Definition validate_chat_existence_access (db : Db) (chat_id uid : string)
  : exn + unit :=
  match find (fun c => String.eqb (chat_id_of c) chat_id) (chats db) with
  | None => inl (HTTPException 404 "Chat not found")
  | Some c =>
      if String.eqb (chat_owner c) uid then inr tt
      else inl (HTTPException 403 "Access denied")
  end.

(** Modelled from the spec: the responses a chat owns (section 3), oldest
    first. *)
Definition responses_of_chat (db : Db) (chat_id : string) : list DbResponse :=
  filter (fun r => String.eqb (r_chat_id r) chat_id) (responses db).

(** Modelled from the spec: [get_responses_by_chat_id] of section 4.1
    step 7, "up to N most recent prior responses for the chat" when the
    order is descending; [offset] rows are skipped and at most [limit]
    kept. *)
Definition get_responses_by_chat_id (db : Db) (chat_id : string)
    (limit offset : Z) (order_by : string) : list DbResponse :=
  let rows := responses_of_chat db chat_id in
  let ordered := if String.eqb order_by "desc" then rev rows else rows in
  firstn (Z.to_nat limit) (skipn (Z.to_nat offset) ordered).

(** Modelled from the spec: [insert_response] of section 4.1 step 10, a new
    row holding raw input, prepared query, formatted output, the engine
    payload and the given rating. *)
Definition insert_response (db : Db) (chat_id user_input query output_text : string)
    (original_response : Json) (rating_value : option RatingValue)
  : DbResponse * Db :=
  let row :=
    {| r_id := new_id (tick db);
       r_chat_id := chat_id;
       r_createdAt := Z.of_nat (tick db);
       r_user_input := user_input;
       r_query := query;
       r_output := output_text;
       r_original_response := original_response;
       r_rating := rating_value |} in
  (row,
   {| users := users db; chats := chats db;
      responses := responses db ++ [row];
      response_references := response_references db;
      tick := S (tick db) |}).

(** Modelled from the spec: [insert_response_reference] of section 4.1
    step 10, one reference row with its ordinal. *)
Definition insert_response_reference (db : Db)
    (reference_id reference_type : string) (idx : nat) (response_id : string)
  : Db :=
  {| users := users db; chats := chats db;
     responses := responses db;
     response_references :=
       response_references db
         ++ [{| dr_reference_id := reference_id;
                dr_reference_type := reference_type;
                dr_idx := idx;
                dr_response_id := response_id |}];
     tick := tick db |}.

(** Modelled from the spec: [get_response_by_id], the response row with that
    identifier, whatever chat it belongs to (the call carries no chat). *)
Definition get_response_by_id (db : Db) (response_id : string)
  : option DbResponse :=
  find (fun r => String.eqb (r_id r) response_id) (responses db).

(** Modelled from the spec: writing the rating of a row, "independently
    of response content" (section 3). *)
Definition set_rating (r : DbResponse) (v : option RatingValue) : DbResponse :=
  {| r_id := r_id r; r_chat_id := r_chat_id r; r_createdAt := r_createdAt r;
     r_user_input := r_user_input r; r_query := r_query r;
     r_output := r_output r; r_original_response := r_original_response r;
     r_rating := v |}.

(** Modelled from the spec: [update_response_rating], section 3, "a
    nullable discrete value attached 1:1 to a Response; set, overwritten,
    or cleared independently of response content"; [None] when no row has
    the identifier. *)
Definition update_response_rating (db : Db) (response_id : string)
    (v : option RatingValue) : option DbResponse * Db :=
  match get_response_by_id db response_id with
  | None => (None, db)
  | Some r =>
      (Some (set_rating r v),
       {| users := users db; chats := chats db;
          responses :=
            map (fun r0 => if String.eqb (r_id r0) response_id
                           then set_rating r0 v else r0)
                (responses db);
          response_references := response_references db;
          tick := tick db |})
  end.

(** Modelled from the spec: [ChatResponse.model_validate] on a row, the
    response with its references in stored order. *)
Definition to_chat_response (db : Db) (r : DbResponse) : ChatResponse :=
  {| cr_id := r_id r;
     cr_createdAt := r_createdAt r;
     cr_input := r_user_input r;
     cr_output := r_output r;
     cr_references :=
       map (fun d => {| ref_id := dr_reference_id d;
                        ref_type := dr_reference_type d |})
           (filter (fun d => String.eqb (dr_response_id d) (r_id r))
                   (response_references db)) |}.

(** The services outside the store (translator, guardrail, preparer,
    engine, scorer, rate limiter): any state and any answers. *)
Variable X : Type.
Variable services : forall c : call, X -> (exn + resp c) * X.

(** The environment made of the store and the services. *)
Definition db_step (c : call) (w : Db * X) : (exn + resp c) * (Db * X) :=
  let '(db, x) := w in
  match c as c0 return (exn + resp c0) * (Db * X) with
  | InsertUser email =>
      let '(r, db1) := insert_user db email in (inr r, (db1, x))
  | GetUserByEmail email => (inr (get_user_by_email db email), (db, x))
  | ValidateChatExistenceAccess chat_id uid =>
      (validate_chat_existence_access db chat_id uid, (db, x))
  | GetResponsesByChatId chat_id limit offset order_by =>
      (inr (get_responses_by_chat_id db chat_id limit offset order_by), (db, x))
  | InsertResponse chat_id user_input query output_text original rating_value =>
      let '(r, db1) :=
        insert_response db chat_id user_input query output_text original
          rating_value in
      (inr r, (db1, x))
  | InsertResponseReference reference_id reference_type idx response_id =>
      (inr tt,
       (insert_response_reference db reference_id reference_type idx response_id,
        x))
  | GetResponseById response_id =>
      (inr (get_response_by_id db response_id), (db, x))
  | UpdateResponseRating response_id v =>
      let '(r, db1) := update_response_rating db response_id v in
      (inr r, (db1, x))
  | c0 => let '(r, x1) := services c0 x in (r, (db, x1))
  end.

End Gateway.

End Api.

Arguments Ret {Json Products RatingValue R} r.
Arguments Raise {Json Products RatingValue R} e.
Arguments Call {Json Products RatingValue R} c k.
Arguments Emit {Json Products RatingValue R} o k.

(** ** A small deployment, for examples

    Two users, each with one chat; chat "C1" has two earlier responses and
    chat "C2", owned by the other user, has one. *)

Definition demo_new_id (n : nat) : string :=
  String.append "row-" (String (Ascii.ascii_of_nat (48 + n)) "").

Definition demo_row (i c q o : string) (t : Z) (v : option Z)
  : @DbResponse string Z :=
  {| r_id := i; r_chat_id := c; r_createdAt := t; r_user_input := q;
     r_query := q; r_output := o; r_original_response := "{}";
     r_rating := v |}.

Definition demo_db : @Db string Z :=
  {| users := [ {| meta_user_id := "u-1"; user_email := "u@x.com" |};
                {| meta_user_id := "u-2"; user_email := "v@x.com" |} ];
     chats := [ {| chat_id_of := "C1"; chat_owner := "u-1"; chat_createdAt := 1%Z |};
                {| chat_id_of := "C2"; chat_owner := "u-2"; chat_createdAt := 2%Z |} ];
     responses := [ demo_row "r-a" "C1" "What is X?" "X is a widget." 3%Z None;
                    demo_row "r-b" "C2" "What is Y?" "Y is a gadget." 4%Z (Some 1%Z);
                    demo_row "r-c" "C1" "And Z?" "Z is a gizmo." 5%Z None ];
     response_references := [];
     tick := 6 |}.

(** What the services answer in an example: the language the translator
    detects, the guardrail's verdict, how the scorer ends and the
    references the composer returns. *)
Record Scenario : Type := {
  sc_lang : option string;
  sc_relevant : bool;
  sc_scores : exn + RagasScores;
  sc_references : list Reference
}.

Definition demo_services (sc : Scenario)
    (c : @call string (list string) Z) (x : unit) : (exn + resp c) * unit :=
  match c as c0 return (exn + resp c0) * unit with
  | CheckRateLimit _ => (inr tt, x)
  | Translate text target =>
      (inr {| source_lang := sc_lang sc;
              translated_text :=
                Some (String.append target (String.append ": " text)) |}, x)
  | Guardrails _ =>
      (inr {| relevant := sc_relevant sc;
              message := Some "This question is out of scope." |}, x)
  | RequestPrepare query _ =>
      (inr (match query with Some q => q | None => "" end), x)
  | PostSearchLocal _ _ => (inr "{answer, references}", x)
  | ResponsePrepare user_input _ _ response_id =>
      (inr {| cr_id := response_id; cr_createdAt := 0%Z;
              cr_input := user_input; cr_output := "X is a widget.";
              cr_references := sc_references sc |}, x)
  | FormatReferences o => (inr o, x)
  | EvaluateWithRagas _ _ => (sc_scores sc, x)
  | _ => (inl (PyError "RuntimeError" "not a service"), x)
  end.

Definition demo_settings (guardrail : bool) : Settings :=
  {| knowledge_graph_api_url := "http://kg";
     max_conversation_turns := 5%Z;
     guardrail_enabled := guardrail |}.

Definition good_scores : RagasScores :=
  {| s_faithfulness := Some 0.5%float;
     s_answer_relevance := Some 0x1.cp-1%float;
     s_context_precision := Some 1%float;
     s_similarity := None |}.

Definition two_references : list Reference :=
  [ {| ref_id := "r1"; ref_type := "doc" |};
    {| ref_id := "r2"; ref_type := "product" |} ].

(** A turn in English, in German, in Spanish, one the guardrail rejects,
    and one whose scorer raises ([evaluate_with_ragas] is not defined in
    [api.py], so calling it raises [NameError]). *)
Definition english : Scenario :=
  {| sc_lang := Some "en"; sc_relevant := true;
     sc_scores := inr good_scores; sc_references := two_references |}.
Definition german : Scenario :=
  {| sc_lang := Some "de"; sc_relevant := true;
     sc_scores := inr good_scores; sc_references := two_references |}.
Definition spanish : Scenario :=
  {| sc_lang := Some "es"; sc_relevant := true;
     sc_scores := inr good_scores; sc_references := two_references |}.
Definition off_topic : Scenario :=
  {| sc_lang := Some "en"; sc_relevant := false;
     sc_scores := inr good_scores; sc_references := two_references |}.
Definition scorer_down : Scenario :=
  {| sc_lang := Some "en"; sc_relevant := true;
     sc_scores := inl (PyError "NameError" "evaluate_with_ragas");
     sc_references := two_references |}.

Definition demo_request : ChatMessage :=
  {| cm_content := "What is product X?"; cm_stream := false |}.

Definition one_turn_settings : Settings :=
  {| knowledge_graph_api_url := "http://kg";
     max_conversation_turns := 1%Z;
     guardrail_enabled := false |}.

(** The three components of a run. *)
Definition outcome_of {R W E : Type} (r : outcome R * W * list E) : outcome R :=
  fst (fst r).
Definition state_of {R W E : Type} (r : outcome R * W * list E) : W :=
  snd (fst r).
Definition trace_of {R W E : Type} (r : outcome R * W * list E) : list E :=
  snd r.

(** The store and the services of a scenario, and an empty catalogue. *)
Definition demo_step (sc : Scenario) := db_step demo_new_id (demo_services sc).
Definition demo_products : list string * list string := ([], []).

(** One create-response turn of user u@x.com on chat "C1". *)
Definition demo_turn (guardrail : bool) (sc : Scenario) :=
  run (demo_step sc)
      (create_chat_response (demo_settings guardrail) 7%Z "tmp-id" "C1"
         demo_request "u@x.com" demo_products)
      (demo_db, tt).

(** ** More views of a trace *)

Section MoreViews.

Context {Json Products RatingValue : Type}.

Definition the_success (e : @event Json Products RatingValue)
  : list (@call Json Products RatingValue) :=
  match e with
  | Ev c (inr _) => [c]
  | _ => []
  end.

Definition the_exception (e : @event Json Products RatingValue) : list exn :=
  match e with
  | Ev _ (inl x) => [x]
  | _ => []
  end.

Definition the_prepared (e : @event Json Products RatingValue) : list string :=
  match e with
  | Ev c r =>
      match c return exn + resp c -> list string with
      | RequestPrepare _ _ =>
          fun r => match r with inr q => [q] | inl _ => [] end
      | _ => fun _ => []
      end r
  | Out _ => []
  end.

Definition the_payload (e : @event Json Products RatingValue) : list Json :=
  match e with
  | Ev c r =>
      match c return exn + resp c -> list Json with
      | PostSearchLocal _ _ =>
          fun r => match r with inr j => [j] | inl _ => [] end
      | _ => fun _ => []
      end r
  | Out _ => []
  end.

(** The calls that returned, in order. *)
Definition succeeded_calls (tr : list (@event Json Products RatingValue)) :=
  flat_map the_success tr.
(** The exceptions the calls raised, in order. *)
Definition raised_exceptions (tr : list (@event Json Products RatingValue)) :=
  flat_map the_exception tr.
(** What [prepare.request_prepare] returned. *)
Definition prepared_queries (tr : list (@event Json Products RatingValue)) :=
  flat_map the_prepared tr.
(** What the knowledge-graph engine returned. *)
Definition engine_payloads (tr : list (@event Json Products RatingValue)) :=
  flat_map the_payload tr.

(** The calls of lines 174-182: user upsert and lookup, access validation,
    rate limit. *)
Definition is_admission_call (c : @call Json Products RatingValue) : bool :=
  match c with
  | InsertUser _ => true
  | GetUserByEmail _ => true
  | ValidateChatExistenceAccess _ _ => true
  | CheckRateLimit _ => true
  | _ => false
  end.

Definition is_guardrail_call (c : @call Json Products RatingValue) : bool :=
  match c with
  | Guardrails _ => true
  | _ => false
  end.

Definition is_request_prepare (c : @call Json Products RatingValue) : bool :=
  match c with
  | RequestPrepare _ _ => true
  | _ => false
  end.

Definition is_rating_write (c : @call Json Products RatingValue) : bool :=
  match c with
  | UpdateResponseRating _ _ => true
  | _ => false
  end.

(** The calls lines 218-311 can make. *)
Definition is_answer_call (c : @call Json Products RatingValue) : bool :=
  match c with
  | RequestPrepare _ _ => true
  | GetResponsesByChatId _ _ _ _ => true
  | PostSearchLocal _ _ => true
  | ResponsePrepare _ _ _ _ => true
  | Translate _ _ => true
  | FormatReferences _ => true
  | InsertResponse _ _ _ _ _ _ => true
  | InsertResponseReference _ _ _ _ => true
  | EvaluateWithRagas _ _ => true
  | _ => false
  end.

(** The row [insert_response] is asked to store for a returned
    [ChatResponse], and the reference rows of its references. *)
Definition row_of (chat_id query : string) (payload : Json)
    (cr : ChatResponse) : @DbResponse Json RatingValue :=
  {| r_id := cr_id cr;
     r_chat_id := chat_id;
     r_createdAt := cr_createdAt cr;
     r_user_input := cr_input cr;
     r_query := query;
     r_output := cr_output cr;
     r_original_response := payload;
     r_rating := None |}.

Definition reference_rows (refs : list Reference) (response_id : string)
  : list DbReference :=
  map (fun '(idx, reference) =>
         {| dr_reference_id := ref_id reference;
            dr_reference_type := ref_type reference;
            dr_idx := idx;
            dr_response_id := response_id |})
      (enumerate refs).

End MoreViews.

(** ** Handlers that look at how each call ended

    A program whose continuation receives the outcome of a call, value or
    exception, so that [try ... except] is a case analysis on it. *)

Section Io.

Variable C : Type.
Variable answer : C -> Type.
(** The exceptions the callee can raise. *)
Variable E : Type.

Inductive io (A : Type) : Type :=
| Done (a : A)
| Throw (e : exn)
| Ask (c : C) (k : E + answer c -> io A).

Arguments Done {A} a.
Arguments Throw {A} e.
Arguments Ask {A} c k.

Fixpoint io_bind {A B : Type} (m : io A) (f : A -> io B) : io B :=
  match m with
  | Done a => f a
  | Throw e => Throw e
  | Ask c k => Ask c (fun r => io_bind (k r) f)
  end.

Inductive io_event : Type :=
| Asked (c : C) (r : E + answer c).

Arguments Asked : clear implicits.

Definition asked_call (e : io_event) : C :=
  match e with Asked c _ => c end.

Definition asked_ok (e : io_event) : bool :=
  match e with
  | Asked _ (inr _) => true
  | Asked _ (inl _) => false
  end.

Variable S : Type.
Variable io_step : forall c : C, S -> (E + answer c) * S.

Fixpoint io_run {A : Type} (p : io A) (s : S)
  : outcome A * S * list io_event :=
  match p with
  | Done a => (Returned a, s, [])
  | Throw e => (Raised e, s, [])
  | Ask c k =>
      let '(r, s1) := io_step c s in
      let '(res, s2, tr) := io_run (k r) s1 in
      (res, s2, Asked c r :: tr)
  end.

End Io.

Arguments io : clear implicits.
Arguments io_event : clear implicits.
Arguments Done {C answer E A} a.
Arguments Throw {C answer E A} e.
Arguments Ask {C answer E A} c k.
Arguments Asked {C answer E} c r.

Definition RuntimeError (msg : string) : exn := PyError "RuntimeError" msg.

(** ** logging_qa.py: append_to_daily_blob *)

Module Blob.

(** The exceptions of the blob client, as the [except] clauses of lines
    39-54 tell them apart: the two named subclasses, any other
    [HttpResponseError], any other [Exception].  Each carries its text,
    which is both [str(e)] and [e.message]. *)
Inductive azure_error : Type :=
| ResourceNotFoundError (text : string)
| ResourceExistsError (text : string)
| HttpResponseError (text : string)
| OtherException (text : string).

Definition str (e : azure_error) : string :=
  match e with
  | ResourceNotFoundError t => t
  | ResourceExistsError t => t
  | HttpResponseError t => t
  | OtherException t => t
  end.

(** The two operations of the blob client the function uses. *)
Inductive call : Type :=
| AppendBlock (blob_path data : string)
| CreateAppendBlob (blob_path : string).

Definition resp (c : call) : Type := unit.

(** The dict of lines 24-30. *)
Record LogEntry : Type := {
  le_timestamp : string;
  le_user_id : string;
  le_question : string;
  le_response : string;
  le_id : string
}.

Definition newline : string := String (Ascii.ascii_of_nat 10) EmptyString.

Section Append.

(** [json.dumps]; text is kept as its UTF-8 bytes, so [encode] changes
    nothing. *)
Variable json_dumps : LogEntry -> string.

(** Line 21: the blob of a user and a day. *)
Definition blob_path_of (user_id today_str : string) : string :=
  String.append user_id (String.append "/" (String.append today_str ".jsonl")).

(** Lines 24-34: the JSON line of one interaction, newline included. *)
Definition log_line_of (now_iso question user_id response response_id : string)
  : string :=
  let log_entry :=
    {| le_timestamp := String.append now_iso "Z";
       le_user_id := user_id;
       le_question := question;
       le_response := response;
       le_id := response_id |} in
  String.append (json_dumps log_entry) newline.

(** [today_str] is [datetime.utcnow().strftime("%Y-%m-%d")] of line 20 and
    [now_iso] is [datetime.utcnow().isoformat()] of line 25. *)
Definition append_to_daily_blob (today_str now_iso : string)
    (question user_id response response_id : string)
  : io call resp azure_error unit :=
  let blob_path := blob_path_of user_id today_str in
  let log_line := log_line_of now_iso question user_id response response_id in
  let data_bytes := log_line in
  Ask (AppendBlock blob_path data_bytes) (fun first =>
    match first with
    | inr _ => Done tt
    | inl (ResourceNotFoundError _) =>
        Ask (CreateAppendBlob blob_path) (fun created =>
          match created with
          | inl e =>
              Throw (RuntimeError
                       (String.append "Failed to create and append to blob: "
                          (str e)))
          | inr _ =>
              Ask (AppendBlock blob_path data_bytes) (fun second =>
                match second with
                | inl e =>
                    Throw (RuntimeError
                             (String.append
                                "Failed to create and append to blob: " (str e)))
                | inr _ => Done tt
                end)
          end)
    | inl (ResourceExistsError t) =>
        Throw (RuntimeError
                 (String.append
                    "Blob exists but could not be appended (may be sealed or corrupted): "
                    t))
    | inl (HttpResponseError t) =>
        Throw (RuntimeError
                 (String.append "Append failed due to HTTP error: " t))
    | inl (OtherException t) =>
        Throw (RuntimeError
                 (String.append "Unexpected error during append: " t))
    end).

End Append.

Definition is_append (c : call) : bool :=
  match c with
  | AppendBlock _ _ => true
  | CreateAppendBlob _ => false
  end.

Definition is_create (c : call) : bool :=
  match c with
  | AppendBlock _ _ => false
  | CreateAppendBlob _ => true
  end.

(** The appends that went through, and all the calls made. *)
Definition written (tr : list (io_event call resp azure_error)) : list call :=
  filter is_append
    (map (@asked_call _ _ _) (filter (@asked_ok _ _ _) tr)).

Definition asked (tr : list (io_event call resp azure_error)) : list call :=
  map (@asked_call _ _ _) tr.

(** The exceptions the blob client raised, in order. *)
Definition raised (tr : list (io_event call resp azure_error))
  : list azure_error :=
  flat_map (fun ev => match ev with
                      | Asked _ (inl x) => [x]
                      | Asked _ (inr _) => []
                      end) tr.

(** A blob container for examples: each blob is the list of its blocks;
    appending to a missing blob is refused. *)
Fixpoint append_block (blobs : list (string * list string))
    (path data : string) : option (list (string * list string)) :=
  match blobs with
  | [] => None
  | (p, blocks) :: rest =>
      if String.eqb p path then Some ((p, blocks ++ [data]) :: rest)
      else match append_block rest path data with
           | Some rest1 => Some ((p, blocks) :: rest1)
           | None => None
           end
  end.

Definition demo_container (c : call) (blobs : list (string * list string))
  : (azure_error + resp c) * list (string * list string) :=
  match c with
  | AppendBlock path data =>
      match append_block blobs path data with
      | Some blobs1 => (inr tt, blobs1)
      | None => (inl (ResourceNotFoundError "BlobNotFound"), blobs)
      end
  | CreateAppendBlob path => (inr tt, blobs ++ [(path, [])])
  end.

Definition demo_dumps (e : LogEntry) : string :=
  String.append "{" (String.append (le_id e) "}").

End Blob.

(** ** api.py: get_chats and create_chat *)

Module Chats.

(** [s.split(sep)] for a one-character separator. *)
Fixpoint split (s : string) (sep : Ascii.ascii) : list string :=
  match s with
  | EmptyString => [EmptyString]
  | String ch rest =>
      if Ascii.eqb ch sep then EmptyString :: split rest sep
      else match split rest sep with
           | piece :: pieces => String ch piece :: pieces
           | [] => [String ch EmptyString]
           end
  end.

Definition comma : Ascii.ascii := Ascii.ascii_of_nat 44.

Section Handlers.

(** The chat rows of the store, the values of a chat's attributes, the
    field names of [schemas.Chat] and its [model_validate] are defined
    outside the source files. *)
Context {DbChat Value : Type}.
Variable model_fields : list string.

(** An instance of [schemas.Chat]: each field with its value or [None]. *)
Definition ChatObject : Type := list (string * option Value).

Variable model_validate : DbChat -> ChatObject.

Inductive call : Type :=
| InsertUser (email : string)
| GetUserByEmail (email : string)
| GetChatsByUser (meta_user_id : string) (limit offset : Z)
                 (order_by : string) (responses_requested : bool)
| InsertChat (meta_user_id : string).

Definition resp (c : call) : Type :=
  match c with
  | InsertUser _ => option User
  | GetUserByEmail _ => option User
  | GetChatsByUser _ _ _ _ _ => list DbChat
  | InsertChat _ => DbChat
  end.

(** A call whose exception is not caught. *)
Definition ask (c : call) : io call resp exn (resp c) :=
  Ask c (fun r => match r with inl e => Throw e | inr a => Done a end).

Notation "x <- m ;; k" := (io_bind m (fun x => k))
  (at level 61, m at next level, right associativity).

(** [getattr(chat, attr)]; [None] when the object has no such field. *)
Fixpoint getattr (chat : ChatObject) (attr : string) : option (option Value) :=
  match chat with
  | [] => None
  | (name, v) :: rest =>
      if String.eqb name attr then Some v else getattr rest attr
  end.

(** [setattr(chat, attr, value)] on a field of the object. *)
Definition setattr (chat : ChatObject) (attr : string) (value : option Value)
  : ChatObject :=
  map (fun '(name, v) => if String.eqb name attr then (name, value)
                         else (name, v)) chat.

(** Lines 83-85 for one chat: every model field that was not asked for is
    set to [None]. *)
Definition null_unrequested (field_list : list string) (chat : ChatObject)
  : ChatObject :=
  fold_left
    (fun chat attr =>
       if negb (in_tuple attr field_list) then setattr chat attr None
       else chat)
    model_fields chat.

Definition get_meta_user_id (user_obj : option User)
  : io call resp exn string :=
  match user_obj with
  | Some u => Done (meta_user_id u)
  | None => Throw (AttributeError "meta_user_id")
  end.

(** [get_chats], lines 56-87.  [user_obj.meta_user_id] is read at line 73,
    after the check of the field list. *)
Definition get_chats (limit offset : Z) (sort fields email : string)
  : io call resp exn (list ChatObject) :=
  let responses_requested := false in
  inserted <- ask (InsertUser email) ;;
  user_obj <-
    match inserted with
    | Some u => Done (Some u)
    | None => ask (GetUserByEmail email)
    end ;;
  let field_list := split fields comma in
  if negb (in_tuple "id" field_list) then
    Throw (HTTPException 422 "Invalid fields parameter. 'id' is required.")
  else
    let responses_requested :=
      if in_tuple "responses" field_list then true else responses_requested in
    uid <- get_meta_user_id user_obj ;;
    db_chats <- ask (GetChatsByUser uid limit offset sort responses_requested) ;;
    let chats := map model_validate db_chats in
    Done (map (null_unrequested field_list) chats).

(** [create_chat], lines 101-110. *)
Definition create_chat (email : string) : io call resp exn ChatObject :=
  inserted <- ask (InsertUser email) ;;
  user_obj <-
    match inserted with
    | Some u => Done (Some u)
    | None => ask (GetUserByEmail email)
    end ;;
  uid <- get_meta_user_id user_obj ;;
  chat_obj <- ask (InsertChat uid) ;;
  Done (model_validate chat_obj).

Definition is_chat_query (c : call) : bool :=
  match c with
  | GetChatsByUser _ _ _ _ _ => true
  | _ => false
  end.

Definition is_chat_insert (c : call) : bool :=
  match c with
  | InsertChat _ => true
  | _ => false
  end.

Definition asked (tr : list (io_event call resp exn)) : list call :=
  map (@asked_call _ _ _) tr.

End Handlers.

(** A store for examples: the user exists already and has two chats. *)
Definition demo_fields : list string := ["id"; "createdAt"; "responses"].

Definition demo_validate (row : string) : @ChatObject string :=
  [("id", Some row); ("createdAt", Some "2025-10-10"); ("responses", Some "[]")].

Definition demo_store (c : call) (s : unit)
  : (exn + @resp string c) * unit :=
  match c as c0 return (exn + @resp string c0) * unit with
  | InsertUser _ => (inr None, s)
  | GetUserByEmail email =>
      (inr (Some {| meta_user_id := "u-1"; user_email := email |}), s)
  | GetChatsByUser _ _ _ _ _ => (inr ["C1"; "C3"], s)
  | InsertChat _ => (inr "C4", s)
  end.

End Chats.

Arguments in_tuple : simpl never.

Section Facts.

Context {Json Products RatingValue : Type}.

Local Abbreviation call := (@call Json Products RatingValue).
Local Abbreviation prog := (@prog Json Products RatingValue).
Local Abbreviation event := (@event Json Products RatingValue).
Local Abbreviation DbResponse := (@DbResponse Json RatingValue).
Local Abbreviation Db := (@Db Json RatingValue).

Section RunFacts.

Variable W : Type.
Variable step : forall c : call, W -> (exn + resp c) * W.

Lemma run_bind {A B : Type} (m : prog A) (f : A -> prog B) (w : W) :
  run step (bind m f) w =
  match run step m w with
  | (Returned a, w1, tr1) =>
      let '(res, w2, tr2) := run step (f a) w1 in (res, w2, tr1 ++ tr2)
  | (Raised e, w1, tr1) => (Raised e, w1, tr1)
  end.
Proof.
  revert w; induction m as [a|e|c k IH|o k IH]; intros w; simpl.
  - destruct (run step (f a) w) as [[res w2] tr2]; reflexivity.
  - reflexivity.
  - destruct (step c w) as [[e|r] w1]; [reflexivity|].
    rewrite IH. destruct (run step (k r) w1) as [[[a|e] w2] tr1]; [|reflexivity].
    destruct (run step (f a) w2) as [[res w3] tr2]; reflexivity.
  - rewrite IH. destruct (run step k w) as [[[a|e] w1] tr1]; [|reflexivity].
    destruct (run step (f a) w1) as [[res w2] tr2]; reflexivity.
Qed.

(** One step of a run: case analysis on what the environment answers, or
    on the value a branch of the handler looks at. *)
Ltac run_one H :=
  match type of H with
  | context [step ?c ?w] =>
      let e := fresh "e" in
      let r := fresh "r" in
      let w1 := fresh "w" in
      let E := fresh "E" in
      destruct (step c w) as [[e|r] w1] eqn:E; simpl in H
  | context [match ?x with Some _ => _ | None => _ end] =>
      destruct x eqn:?; simpl in H
  | context [if ?b then _ else _] => destruct b eqn:?; simpl in H
  end.

Ltac finish_run H :=
  match type of H with
  | (_, _, _) = (_, _, _) => inversion H; subst; clear H; simpl
  end;
  repeat match goal with
         | Hn : negb _ = true |- _ => apply negb_true_iff in Hn
         | Hn : negb _ = false |- _ => apply negb_false_iff in Hn
         end.

Ltac use_equations :=
  repeat match goal with
         | Hx : ?l = _ |- context [?l] => rewrite Hx
         end;
  simpl.

(** Closes goals made of conjunctions, disjunctions and existentials over
    equations that hold by computation or by a hypothesis. *)
Ltac close :=
  solve [ reflexivity | eassumption | discriminate
        | split; close | eexists; close | left; close | right; close
        | progress use_equations; close ].

(** Lines 174-216 only talk to the store gate, the rate limiter, the
    translator and the guardrail, and end in one of the listed ways. *)
Lemma run_admit_turn settings now chatId request email w res w' tr :
  run step (admit_turn settings now chatId request email) w = (res, w', tr) ->
  forallb gate_event tr = true /\
  match res with
  | Returned (ShortCircuit cr) =>
      cr_id cr = sentinel_id /\ cr_createdAt cr = now /\
      cr_input cr = cm_content request /\ cr_references cr = [] /\
      exists t, translations tr = [(cm_content request, "en", t)] /\
        ((supported_language (source_lang t) = false /\
          guardrail_verdicts tr = [] /\
          cr_output cr = unsupported_language_message)
         \/
         (supported_language (source_lang t) = true /\
          guardrail_enabled settings = true /\
          exists g, guardrail_verdicts tr = [g] /\ relevant g = false /\
                    message g = Some (cr_output cr)))
  | Returned (Proceed lang query) =>
      exists t, translations tr = [(cm_content request, "en", t)] /\
        source_lang t = Some lang /\
        supported_language (Some lang) = true /\
        query = (if String.eqb lang "en" then Some (cm_content request)
                 else translated_text t) /\
        filter is_translate (calls tr) = [Translate (cm_content request) "en"] /\
        ((guardrail_enabled settings = false /\ guardrail_verdicts tr = [])
         \/
         (guardrail_enabled settings = true /\
          exists g, guardrail_verdicts tr = [g] /\ relevant g = true))
  | Raised e =>
      (translations tr = [] /\ guardrail_verdicts tr = [])
      \/
      exists t, translations tr = [(cm_content request, "en", t)] /\
        supported_language (source_lang t) = true /\
        guardrail_enabled settings = true /\
        (guardrail_verdicts tr = []
         \/ exists g, guardrail_verdicts tr = [g] /\ relevant g = false /\
                      message g = None)
  end.
Proof.
  unfold admit_turn, guardrail_gate, get_meta_user_id, getitem; simpl; intros H.
  repeat run_one H; finish_run H.
  all: split; [reflexivity|].
  all: close.
Qed.

(** The events of lines 174-216 are invisible to the views of the later
    steps. *)
Lemma gate_events_silent (pre : list event) :
  forallb gate_event pre = true ->
  composed pre = [] /\ inserted_responses pre = [] /\ scorings pre = [] /\
  outputs pre = [] /\ fetched_histories pre = [] /\
  filter is_response_persistence (calls pre) = [] /\
  filter is_qa_call (calls pre) = [] /\
  filter is_response_persistence (failed_calls pre) = [].
Proof.
  induction pre as [|ev pre IH]; simpl; [intuition|].
  intros H; apply andb_true_iff in H; destruct H as [Hev Hpre].
  specialize (IH Hpre).
  destruct IH as (I1 & I2 & I3 & I4 & I5 & I6 & I7 & I8).
  unfold composed, inserted_responses, scorings, outputs, fetched_histories,
    calls, failed_calls in *; simpl.
  destruct ev as [c r|o]; [|discriminate].
  destruct c; try discriminate; destruct r; simpl;
    rewrite ?I1, ?I2, ?I3, ?I4, ?I5, ?I6, ?I7, ?I8; intuition.
Qed.

(** The handler is lines 174-216 followed, unless they returned or raised,
    by lines 218-311. *)
Lemma run_create_chat_response settings now uuid4 chatId request email
    (products : Products * Products) w res w' tr :
  run step (create_chat_response settings now uuid4 chatId request email
              products) w = (res, w', tr) ->
  exists ra wa tra,
    run step (admit_turn settings now chatId request email) w = (ra, wa, tra) /\
    match ra with
    | Raised e => res = Raised e /\ w' = wa /\ tr = tra
    | Returned (ShortCircuit cr) => res = Returned cr /\ w' = wa /\ tr = tra
    | Returned (Proceed lang query) =>
        exists trb,
          run step (answer_turn settings uuid4 chatId request (fst products)
                      (snd products) lang query) wa = (res, w', trb) /\
          tr = tra ++ trb
    end.
Proof.
  destruct products as [unique_products all_products].
  unfold create_chat_response; rewrite run_bind.
  destruct (run step (admit_turn settings now chatId request email) w)
    as [[ra wa] tra].
  intros H; exists ra, wa, tra; split; [reflexivity|].
  destruct ra as [[cr|lang query]|e]; cbv beta iota in H; cbn [fst snd].
  - simpl in H; inversion H; subst; rewrite app_nil_r; auto.
  - destruct (run step (answer_turn settings uuid4 chatId request
                          unique_products all_products lang query) wa)
      as [[rb wb] trb].
    inversion H; subst; eauto.
  - inversion H; subst; auto.
Qed.

Lemma detected_source_lang_app (tra trb : list event) text target t :
  translations tra = [(text, target, t)] ->
  detected_source_lang (tra ++ trb) = Some (source_lang t).
Proof.
  intros H; unfold detected_source_lang, translations in *.
  rewrite flat_map_app, H; reflexivity.
Qed.

Lemma detected_source_lang_one (tr : list event) text target t :
  translations tr = [(text, target, t)] ->
  detected_source_lang tr = Some (source_lang t).
Proof.
  intros H; unfold detected_source_lang; rewrite H; reflexivity.
Qed.

Lemma calls_app (tra trb : list event) : calls (tra ++ trb) = calls tra ++ calls trb.
Proof. apply flat_map_app. Qed.

(** The loop of lines 281-287 only inserts references. *)
Lemma ref_insert_events_silent (tr : list event) :
  forallb ref_insert_event tr = true ->
  composed tr = [] /\ inserted_responses tr = [] /\ scorings tr = [] /\
  outputs tr = [] /\ translations tr = [] /\
  filter is_qa_call (calls tr) = [] /\
  filter is_translate (calls tr) = [] /\
  filter is_response_persistence (calls tr) = calls tr /\
  filter is_response_persistence (failed_calls tr) = failed_calls tr.
Proof.
  induction tr as [|ev tr IH]; simpl; [intuition|].
  intros H; apply andb_true_iff in H; destruct H as [Hev Htr].
  specialize (IH Htr).
  destruct IH as (I1 & I2 & I3 & I4 & I5 & I6 & I7 & I8 & I9).
  unfold composed, inserted_responses, scorings, outputs, translations,
    calls, failed_calls in *; simpl.
  destruct ev as [c r|o]; [|discriminate].
  destruct c; try discriminate; destruct r; simpl;
    rewrite ?I1, ?I2, ?I3, ?I4, ?I5, ?I6, ?I7, ?I8, ?I9; intuition.
Qed.

(** Lines 281-287: the loop calls [insert_response_reference] once per
    reference, in list order, with the position as [idx]; it stops at the
    first call that raises. *)
Lemma run_reference_loop (response_id : string) (refs : list Reference) :
  forall start w res w' tr,
  run step
    (for_ (combine (seq start (length refs)) refs)
       (fun '(idx, reference) =>
          perform (InsertResponseReference (ref_id reference)
                     (ref_type reference) idx response_id))) w
  = (res, w', tr) ->
  forallb ref_insert_event tr = true /\
  (exists n,
     calls tr =
       firstn n
         (map (fun '(idx, reference) =>
                 InsertResponseReference (ref_id reference)
                   (ref_type reference) idx response_id)
              (combine (seq start (length refs)) refs))) /\
  ((res = Returned tt /\
    failed_calls tr = [] /\
    calls tr =
      map (fun '(idx, reference) =>
             InsertResponseReference (ref_id reference) (ref_type reference)
               idx response_id)
          (combine (seq start (length refs)) refs))
   \/ (exists e, res = Raised e /\ failed_calls tr <> [])).
Proof.
  induction refs as [|reference refs IH]; intros start w res w' tr; simpl.
  - intros H; inversion H; subst; simpl.
    split; [reflexivity|]. split; [exists 0; reflexivity|auto].
  - destruct (step _ w) as [[e|[]] w1] eqn:E.
    + intros H; inversion H; subst; simpl; split; [reflexivity|].
      split; [exists 1; reflexivity|].
      right; exists e; split; [reflexivity|discriminate].
    + destruct (run step _ w1) as [[res1 w2] tr1] eqn:E1.
      intros H; inversion H; subst; clear H.
      apply IH in E1; destruct E1 as (Hall & [n Hn] & Hcase).
      split; [exact Hall|].
      split.
      * exists (S n); unfold calls in *; simpl; rewrite Hn; reflexivity.
      * destruct Hcase as [(-> & Hf & Hc)|(e & -> & Hf)].
        -- left; unfold calls, failed_calls in *; simpl.
           rewrite Hf, Hc; auto.
        -- right; exists e; unfold failed_calls in *; simpl; auto.
Qed.

(** C1: a create-response turn whose detected source language is not en, de
    or fr returns the fixed unsupported-language response (it does not
    raise), and the trace of the turn contains no [insert_response], no
    [insert_response_reference] and no post to the knowledge-graph engine.
    The user upsert of line 174 has already run by then. *)
Theorem unsupported_language_short_circuits
    settings now uuid4 chatId request email (products : Products * Products)
    w res w' tr lang :
  run step (create_chat_response settings now uuid4 chatId request email
              products) w = (res, w', tr) ->
  detected_source_lang tr = Some lang ->
  supported_language lang = false ->
  res = Returned {| cr_id := sentinel_id;
                    cr_createdAt := now;
                    cr_input := cm_content request;
                    cr_output := unsupported_language_message;
                    cr_references := [] |}
  /\ filter is_response_persistence (calls tr) = []
  /\ filter is_qa_call (calls tr) = [].
Proof.
  intros H Hlang Hunsupported.
  apply run_create_chat_response in H.
  destruct H as (ra & wa & tra & HA & H).
  apply run_admit_turn in HA; destruct HA as [Hgate HA].
  destruct ra as [[cr|l query]|e].
  - destruct H as (-> & -> & ->).
    destruct HA as (Hid & Hnow & Hinput & Hrefs & t & Ht & Hcase).
    pose proof Ht as Hd; apply detected_source_lang_one in Hd;
      rewrite Hd in Hlang.
    injection Hlang as <-.
    destruct Hcase as [(_ & _ & Hout)|(Hsupported & _)]; [|congruence].
    destruct (gate_events_silent _ Hgate) as (_ & _ & _ & _ & _ & Hp & Hq & _).
    destruct cr; simpl in *; subst; auto.
  - destruct H as (trb & _ & ->).
    destruct HA as (t & Ht & Hl & Hsupported & _).
    pose proof Ht as Hd;
      apply detected_source_lang_app with (trb := trb) in Hd;
      rewrite Hd in Hlang.
    injection Hlang as <-. congruence.
  - destruct H as (-> & -> & ->).
    destruct HA as [(Ht & _)|(t & Ht & Hsupported & _)].
    + unfold detected_source_lang in Hlang; rewrite Ht in Hlang; discriminate.
    + pose proof Ht as Hd; apply detected_source_lang_one in Hd;
      rewrite Hd in Hlang.
      injection Hlang as <-. congruence.
Qed.

(** C2: when guardrail evaluation is enabled and the guardrail answers "not
    relevant" with a message, the turn returns the short-circuit response
    whose output is that message verbatim, and the trace of the turn
    contains no [insert_response], no [insert_response_reference] and no
    post to the knowledge-graph engine. *)
Theorem guardrail_rejection_short_circuits
    settings now uuid4 chatId request email (products : Products * Products)
    w res w' tr g m :
  run step (create_chat_response settings now uuid4 chatId request email
              products) w = (res, w', tr) ->
  guardrail_enabled settings = true ->
  guardrail_verdicts tr = [g] ->
  relevant g = false ->
  message g = Some m ->
  res = Returned {| cr_id := sentinel_id;
                    cr_createdAt := now;
                    cr_input := cm_content request;
                    cr_output := m;
                    cr_references := [] |}
  /\ filter is_response_persistence (calls tr) = []
  /\ filter is_qa_call (calls tr) = [].
Proof.
  intros H Henabled Hverdict Hrelevant Hmessage.
  apply run_create_chat_response in H.
  destruct H as (ra & wa & tra & HA & H).
  apply run_admit_turn in HA; destruct HA as [Hgate HA].
  destruct ra as [[cr|l query]|e].
  - destruct H as (-> & -> & ->).
    destruct HA as (Hid & Hnow & Hinput & Hrefs & t & Ht & Hcase).
    destruct Hcase as [(_ & Hnone & _)|(_ & _ & g0 & Hg0 & _ & Hm0)];
      [congruence|].
    assert (g0 = g) by congruence; subst g0.
    assert (cr_output cr = m) by congruence.
    destruct (gate_events_silent _ Hgate) as (_ & _ & _ & _ & _ & Hp & Hq & _).
    destruct cr; simpl in *; subst; auto.
  - destruct H as (trb & _ & ->).
    destruct HA as (t & _ & _ & _ & _ & _ & Hcase).
    unfold guardrail_verdicts in *; rewrite flat_map_app in Hverdict.
    destruct Hcase as [(Hoff & _)|(_ & g0 & Hg0 & Hrel)]; [congruence|].
    rewrite Hg0 in Hverdict; simpl in Hverdict.
    injection Hverdict as -> _. congruence.
  - destruct H as (-> & -> & ->).
    destruct HA as [(_ & Hnone)|(t & _ & _ & _ & [Hnone|(g0 & Hg0 & _ & Hm0)])];
      try congruence.
Qed.

(** Case analysis of lines 218-311 down to every way they can end. *)
Ltac explore_answer_turn H :=
  unfold answer_turn, score_and_log, log_low_quality_response, getitem, emit,
    enumerate in H;
  simpl in H;
  repeat run_one H;
  try (rewrite run_bind in H;
       match type of H with
       | context [run step (for_ ?l ?b) ?w] =>
           let HL := fresh "HL" in
           let Hloop := fresh "Hloop" in
           destruct (run step (for_ l b) w) as [[[[]|?] ?] ?] eqn:HL;
           apply run_reference_loop in HL;
           let Hprefix := fresh "Hprefix" in
           destruct HL as (Hloop & Hprefix & HL);
           simpl in H; repeat run_one H
       end);
  finish_run H.

(** Unfolds the views of a trace and pushes them through the events. *)
Ltac unfold_views :=
  unfold composed, inserted_responses, scorings, outputs, fetched_histories,
    calls, failed_calls, translations, guardrail_verdicts in *.

Ltac push_views_in H :=
  repeat first [ rewrite flat_map_app in H | rewrite filter_app in H
               | progress simpl in H ];
  repeat match goal with
         | G : filter ?q (flat_map ?f ?t) = _ |- _ =>
             match type of H with
             | context [filter q (flat_map f t)] => rewrite G in H
             end
         end;
  repeat match goal with
         | G : flat_map ?f ?t = _ |- _ =>
             match type of H with context [flat_map f t] => rewrite G in H end
         end;
  simpl in H.

Ltac push_views :=
  repeat first [ rewrite flat_map_app | rewrite filter_app | progress simpl ];
  repeat match goal with
         | G : filter ?q (flat_map ?f ?t) = _
           |- context [filter ?q (flat_map ?f ?t)] => rewrite G
         end;
  repeat match goal with
         | G : flat_map ?f ?t = _ |- context [flat_map ?f ?t] => rewrite G
         end;
  simpl.

(** Opens a run of the whole handler: the facts about lines 174-216, then
    every way lines 218-311 can end. *)
Ltac explore_turn H :=
  let ra := fresh "ra" in
  let wa := fresh "wa" in
  let tra := fresh "tra" in
  let HA := fresh "HA" in
  let Hgate := fresh "Hgate" in
  apply run_create_chat_response in H;
  destruct H as (ra & wa & tra & HA & H);
  apply run_admit_turn in HA; destruct HA as [Hgate HA];
  pose proof (gate_events_silent _ Hgate) as
    (?G & ?G & ?G & ?G & ?G & ?G & ?G & ?G);
  destruct ra as [[?cr|?l ?query]|?e];
  [ destruct H as (-> & -> & ->)
  | let trb := fresh "trb" in
    destruct H as (trb & H & ->);
    explore_answer_turn H;
    try match goal with
        | Hloop : forallb ref_insert_event _ = true |- _ =>
            pose proof (ref_insert_events_silent _ Hloop) as
              (?L & ?L & ?L & ?L & ?L & ?L & ?L & ?L & ?L)
        end
  | destruct H as (-> & -> & ->) ];
  unfold_views.

(** C8: when the scorer returns the three mandatory scores, the three
    gauges are set to them whatever the thresholds say, the similarity
    gauge is set exactly when a similarity is present, and the two
    low-quality records (the warning line and the JSON entry with question,
    answer and scores) are emitted exactly when faithfulness or answer
    relevance is below its threshold 0.8. *)
Theorem scores_exported_and_low_quality_logged
    settings now uuid4 chatId request email (products : Products * Products)
    w res w' tr s f r p :
  run step (create_chat_response settings now uuid4 chatId request email
              products) w = (res, w', tr) ->
  scorings tr = [inr s] ->
  s_faithfulness s = Some f ->
  s_answer_relevance s = Some r ->
  s_context_precision s = Some p ->
  exists cr,
    res = Returned cr /\
    outputs tr =
      [GaugeSet faithfulness_gauge f;
       GaugeSet answer_relevance_gauge r;
       GaugeSet context_precision_gauge p]
      ++ match s_similarity s with
         | Some x => [GaugeSet similarity_gauge x]
         | None => []
         end
      ++ (if PrimFloat.ltb f FAITHFULNESS_THRESHOLD
             || PrimFloat.ltb r RELEVANCE_THRESHOLD
          then [WarningLowRagasScore f r (cm_content request) (cr_output cr);
                WarningJson {| lq_event := "low_quality_response";
                               lq_question := cm_content request;
                               lq_answer := cr_output cr;
                               lq_faithfulness := f;
                               lq_answer_relevance := r;
                               lq_context := None |}]
          else []) /\
    (existsb is_low_quality_record (outputs tr) = true <->
     PrimFloat.ltb f FAITHFULNESS_THRESHOLD = true
     \/ PrimFloat.ltb r RELEVANCE_THRESHOLD = true).
Proof.
  intros H Hs Hf Hr Hp.
  explore_turn H.
  all: push_views_in Hs; try discriminate.
  all: injection Hs as Hs; subst; try congruence.
  all: eexists; split; [reflexivity|].
  all: push_views.
  all: repeat match goal with
         | Ha : ?x = Some ?a, Hb : ?x = Some ?b |- _ =>
             assert (a = b) by congruence; subst a; clear Ha
         end.
  all: rewrite <- orb_true_iff.
  all: repeat match goal with
         | Hx : ?l = _ |- context [?l] => rewrite Hx
         end.
  all: simpl; split; [reflexivity|]; split; auto.
Qed.

(** Positions in [enumerate]. *)
Lemma in_combine_seq {A : Type} (l : list A) :
  forall start i x,
  In (i, x) (combine (seq start (length l)) l) ->
  start <= i /\ nth_error l (i - start) = Some x.
Proof.
  induction l as [|a l IH]; simpl; intros start i x H; [contradiction|].
  destruct H as [H|H].
  - inversion H; subst. rewrite Nat.sub_diag. auto.
  - apply IH in H. destruct H as [Hle Hnth].
    split; [lia|].
    replace (i - start) with (S (i - S start)) by lia. exact Hnth.
Qed.

Lemma nth_error_combine_seq {A : Type} (l : list A) :
  forall start i,
  nth_error (combine (seq start (length l)) l) i =
  option_map (fun x => (start + i, x)) (nth_error l i).
Proof.
  induction l as [|a l IH]; intros start [|i]; simpl; auto.
  - rewrite Nat.add_0_r; reflexivity.
  - rewrite IH. destruct (nth_error l i); simpl; [|reflexivity].
    rewrite Nat.add_succ_r; reflexivity.
Qed.

(** [idx] is the position: the [i]-th call of [reference_inserts] carries
    the [i]-th reference and the ordinal [i]. *)
Lemma nth_error_reference_inserts (refs : list Reference) response_id i :
  nth_error (reference_inserts refs response_id : list call) i =
  option_map
    (fun reference =>
       InsertResponseReference (ref_id reference) (ref_type reference) i
         response_id)
    (nth_error refs i).
Proof.
  unfold reference_inserts, enumerate.
  rewrite nth_error_map, nth_error_combine_seq.
  destruct (nth_error refs i); reflexivity.
Qed.

Lemma length_reference_inserts (refs : list Reference) response_id :
  length (reference_inserts refs response_id : list call) = length refs.
Proof.
  unfold reference_inserts, enumerate.
  rewrite length_map, length_combine, length_seq. apply Nat.min_id.
Qed.

(** C3 (amended): a turn that reaches the scoring call has already
    persisted the Response and every Reference.  If the scoring call raises,
    or a mandatory score is missing from its result, the exception is not
    caught: it ends the turn and no ChatResponse is returned.  If the three
    mandatory scores are present the handler returns the composed
    ChatResponse, made of the persisted row's id and timestamp, the
    composer's input and references and the persisted output, none of which
    depends on the scores. *)
Theorem scoring_failure_propagates
    settings now uuid4 chatId request email (products : Products * Products)
    w res w' tr sc :
  run step (create_chat_response settings now uuid4 chatId request email
              products) w = (res, w', tr) ->
  scorings tr = [sc] ->
  exists cr0 robj query output_text payload,
    composed tr = [cr0] /\
    inserted_responses tr = [robj] /\
    filter is_response_persistence (calls tr) =
      InsertResponse chatId (cr_input cr0) query output_text payload None
        :: reference_inserts (cr_references cr0) (r_id robj) /\
    filter is_response_persistence (failed_calls tr) = [] /\
    match sc with
    | inl e => res = Raised e
    | inr s =>
        match s_faithfulness s, s_answer_relevance s, s_context_precision s with
        | Some _, Some _, Some _ =>
            res = Returned {| cr_id := r_id robj;
                              cr_createdAt := r_createdAt robj;
                              cr_input := cr_input cr0;
                              cr_output := output_text;
                              cr_references := cr_references cr0 |}
        | None, _, _ => res = Raised (KeyError "faithfulness")
        | Some _, None, _ => res = Raised (KeyError "answer_relevance")
        | Some _, Some _, None => res = Raised (KeyError "context_precision")
        end
    end.
Proof.
  intros H Hs.
  explore_turn H.
  all: push_views_in Hs; try discriminate.
  all: injection Hs as Hs; subst.
  all: destruct HL as [(_ & Hf & Hc)|(e0 & He0 & _)]; [|discriminate He0].
  all: clear Hprefix.
  all: do 5 eexists.
  all: push_views.
  all: split; [reflexivity|]; split; [reflexivity|].
  all: split; [rewrite app_nil_r; reflexivity|].
  all: split; [reflexivity|].
  all: use_equations; reflexivity.
Qed.

(** C4: in a turn whose persistence calls all succeed, the persistence
    calls are, in this order, one [insert_response] and then one
    [insert_response_reference] per reference of the composer's list, in
    list order; the call at position [i] carries the [i]-th reference and
    [idx = i]. *)
Theorem references_persisted_in_order
    settings now uuid4 chatId request email (products : Products * Products)
    w res w' tr cr0 robj :
  run step (create_chat_response settings now uuid4 chatId request email
              products) w = (res, w', tr) ->
  composed tr = [cr0] ->
  inserted_responses tr = [robj] ->
  filter is_response_persistence (failed_calls tr) = [] ->
  exists query output_text payload,
    filter is_response_persistence (calls tr) =
      InsertResponse chatId (cr_input cr0) query output_text payload None
        :: reference_inserts (cr_references cr0) (r_id robj) /\
    length (filter is_response_persistence (calls tr)) =
      S (length (cr_references cr0)) /\
    forall i,
      nth_error (filter is_response_persistence (calls tr)) (S i) =
      option_map
        (fun reference =>
           InsertResponseReference (ref_id reference) (ref_type reference) i
             (r_id robj))
        (nth_error (cr_references cr0) i).
Proof.
  intros H Hc0 Hrobj Hfail.
  assert (Hlist : exists query output_text payload,
             filter is_response_persistence (calls tr) =
               InsertResponse chatId (cr_input cr0) query output_text payload
                 None
                 :: reference_inserts (cr_references cr0) (r_id robj)).
  { explore_turn H.
    all: push_views_in Hc0; try discriminate.
    all: push_views_in Hrobj; try discriminate.
    all: injection Hc0 as Hc0; injection Hrobj as Hrobj; subst.
    all: clear Hprefix.
    all: destruct HL as [(_ & Hf & Hc)|(e0 & _ & Hnonempty)];
      [|push_views_in Hfail; try contradiction;
        try (apply app_eq_nil in Hfail; destruct Hfail; contradiction)].
    all: do 3 eexists; push_views; rewrite ?app_nil_r; reflexivity. }
  destruct Hlist as (query & output_text & payload & Hlist).
  exists query, output_text, payload.
  rewrite Hlist; simpl.
  rewrite length_reference_inserts.
  split; [reflexivity|]. split; [reflexivity|].
  intros i; apply nth_error_reference_inserts.
Qed.

Lemma gate_calls_not_persistence (pre : list event) (c : call) :
  forallb gate_event pre = true ->
  In c (calls pre) -> is_response_persistence c = false.
Proof.
  intros Hgate Hin.
  destruct (gate_events_silent _ Hgate) as (_ & _ & _ & _ & _ & Hp & _).
  destruct (is_response_persistence c) eqn:Hc; [|reflexivity].
  assert (Hf : In c (filter is_response_persistence (calls pre)))
    by (apply filter_In; auto).
  rewrite Hp in Hf; contradiction.
Qed.

Lemma in_firstn {A : Type} (n : nat) (l : list A) (x : A) :
  In x (firstn n l) -> In x l.
Proof.
  intros H. rewrite <- (firstn_skipn n l). apply in_or_app; auto.
Qed.

Lemma loop_calls_are_references (refs : list Reference) response_id
    (tr : list event) (c : call) :
  (exists n,
     calls tr =
       firstn n
         (map (fun '(idx, reference) =>
                 InsertResponseReference (ref_id reference)
                   (ref_type reference) idx response_id)
              (combine (seq 0 (length refs)) refs))) ->
  In c (calls tr) ->
  exists idx reference,
    c = InsertResponseReference (ref_id reference) (ref_type reference) idx
          response_id /\
    nth_error refs idx = Some reference.
Proof.
  intros [n Hn] Hin. rewrite Hn in Hin.
  apply in_firstn, in_map_iff in Hin.
  destruct Hin as ([idx reference] & <- & Hin).
  apply in_combine_seq in Hin. destruct Hin as [_ Hnth].
  rewrite Nat.sub_0_r in Hnth. eauto.
Qed.

(** C6: the passes between the composer and persistence (back-translation,
    citation reformatting) leave the composer's input and references as
    they are: the persisted input is the composer's, every reference
    inserted is the reference at that position of the composer's list, and
    a returned response carries the composer's input and references.  The
    translator is called a second time, on the composer's output and with
    the detected language as target, exactly when that language is not
    "en". *)
Theorem translation_passes_touch_only_output
    settings now uuid4 chatId request email (products : Products * Products)
    w res w' tr cr0 lang :
  run step (create_chat_response settings now uuid4 chatId request email
              products) w = (res, w', tr) ->
  composed tr = [cr0] ->
  detected_source_lang tr = Some (Some lang) ->
  (forall cr, res = Returned cr ->
     cr_input cr = cr_input cr0 /\ cr_references cr = cr_references cr0) /\
  (forall chat_id user_input query output_text payload rating_value,
     In (InsertResponse chat_id user_input query output_text payload
           rating_value) (calls tr) ->
     user_input = cr_input cr0) /\
  (forall reference_id reference_type idx response_id,
     In (InsertResponseReference reference_id reference_type idx response_id)
        (calls tr) ->
     nth_error (cr_references cr0) idx =
       Some {| ref_id := reference_id; ref_type := reference_type |}) /\
  filter is_translate (calls tr) =
    Translate (cm_content request) "en"
      :: (if String.eqb lang "en" then []
          else [Translate (cr_output cr0) lang]).
Proof.
  intros H Hc0 Hlang.
  assert (Hmain :
    (forall cr, res = Returned cr ->
       cr_input cr = cr_input cr0 /\ cr_references cr = cr_references cr0) /\
    (forall c, In c (filter is_response_persistence (calls tr)) ->
       match c with
       | InsertResponse _ user_input _ _ _ _ => user_input = cr_input cr0
       | InsertResponseReference reference_id reference_type idx _ =>
           nth_error (cr_references cr0) idx =
             Some {| ref_id := reference_id; ref_type := reference_type |}
       | _ => True
       end) /\
    filter is_translate (calls tr) =
      Translate (cm_content request) "en"
        :: (if String.eqb lang "en" then []
            else [Translate (cr_output cr0) lang])).
  { explore_turn H.
    all: push_views_in Hc0; try discriminate.
    all: injection Hc0 as Hc0; subst.
    all: destruct HA as (t & Ht & Hl & _ & _ & Htr & _).
    all: unfold detected_source_lang, translations in Hlang;
      rewrite flat_map_app, Ht in Hlang; simpl in Hlang;
      assert (l = lang) by congruence; subst l; clear Hlang.
    all: split; [intros cr Hcr; inversion Hcr; subst; simpl; auto|].
    all: split; [|push_views; rewrite ?Htr; use_equations; reflexivity].
    all: intros c; push_views; intros Hin.
    all: repeat first [ rewrite in_app_iff in Hin | progress simpl in Hin ].
    all: repeat match goal with
           | Hx : _ \/ _ |- _ => destruct Hx as [Hx|Hx]
           end;
      try contradiction; try (subst c; reflexivity).
    all: destruct (@loop_calls_are_references _ _ _ _ Hprefix Hin)
      as (i0 & ref0 & -> & Hnth); destruct ref0; exact Hnth. }
  destruct Hmain as (Hret & Hpersist & Htranslate).
  split; [exact Hret|]. split; [|split; [|exact Htranslate]].
  - intros chat_id user_input query output_text payload rating_value Hin.
    apply (Hpersist (InsertResponse chat_id user_input query output_text
                       payload rating_value)).
    apply filter_In; auto.
  - intros reference_id reference_type idx response_id Hin.
    apply (Hpersist (InsertResponseReference reference_id reference_type idx
                       response_id)).
    apply filter_In; auto.
Qed.

(** A property of the environment's state that every call of a given kind
    preserves still holds after a run that made only calls of that kind. *)
Lemma run_invariant {R : Type} (P : W -> Prop) (ok : call -> bool) :
  (forall c w, ok c = true -> P w -> P (snd (step c w))) ->
  forall (p : prog R) w res w' tr,
  run step p w = (res, w', tr) ->
  forallb ok (calls tr) = true -> P w -> P w'.
Proof.
  intros Hstep.
  induction p as [a|e|c k IH|o k IH]; simpl; intros w res w' tr H Hok HP.
  - inversion H; subst; exact HP.
  - inversion H; subst; exact HP.
  - specialize (Hstep c w). destruct (step c w) as [[e|r] w1]; simpl in Hstep.
    + inversion H; subst. simpl in Hok.
      apply andb_true_iff in Hok; destruct Hok as [Hc _]. auto.
    + destruct (run step (k r) w1) as [[res1 w2] tr1] eqn:E.
      inversion H; subst. simpl in Hok.
      apply andb_true_iff in Hok; destruct Hok as [Hc Hrest].
      eapply IH; eauto.
  - destruct (run step k w) as [[res1 w1] tr1] eqn:E.
    inversion H; subst. simpl in Hok. eapply IH; eauto.
Qed.

Lemma gate_events_make_gate_calls (tr : list event) :
  forallb gate_event tr = true -> forallb is_gate_call (calls tr) = true.
Proof.
  induction tr as [|[c r|o] tr IH]; simpl; auto; [|discriminate].
  intros H; apply andb_true_iff in H; destruct H as [Hc Htr].
  rewrite Hc; simpl; auto.
Qed.

(** Lines 222-235 build, oldest first, the two entries of each old
    response. *)
Lemma build_conversation_history_entries (old_responses : list DbResponse) :
  build_conversation_history old_responses =
  flat_map history_entries (rev old_responses).
Proof.
  unfold build_conversation_history.
  assert (G : forall (l : list DbResponse) acc,
             fold_left
               (fun conversation_history response =>
                  (conversation_history
                     ++ [{| msg_role := "user";
                            msg_content := r_query response |}])
                     ++ [{| msg_role := "assistant";
                            msg_content := r_output response |}])
               l acc
             = acc ++ flat_map history_entries l).
  { induction l as [|r l IH]; intros acc; simpl.
    - rewrite app_nil_r; reflexivity.
    - rewrite IH, <- !app_assoc; reflexivity. }
  apply (G (rev old_responses) []).
Qed.

Lemma length_history_entries (l : list DbResponse) :
  length (flat_map history_entries l) = 2 * length l.
Proof.
  induction l as [|r l IH]; simpl; [reflexivity|]. rewrite IH; lia.
Qed.

End RunFacts.

(** ** The handlers against the persistence gateway *)

Section DbFacts.

Variable new_id : nat -> string.
Variable X : Type.
Variable services : forall c : call, X -> (exn + resp c) * X.

Local Abbreviation store := (db_step new_id services).

(** The calls of lines 174-216 leave chats, responses and references as
    they are. *)
Lemma gate_calls_keep_responses (c : call) (w : Db * X) :
  is_gate_call c = true ->
  chats (fst (snd (store c w))) = chats (fst w) /\
  responses (fst (snd (store c w))) = responses (fst w) /\
  response_references (fst (snd (store c w))) = response_references (fst w).
Proof.
  destruct w as [db x]; destruct c; try discriminate; intros _; simpl.
  - unfold insert_user. destruct (find_user db email); simpl; auto.
  - auto.
  - auto.
  - destruct (services _ x); auto.
  - destruct (services _ x); auto.
  - destruct (services _ x); auto.
Qed.

Lemma admit_turn_keeps_responses settings now chatId request email
    db x res db' x' tr :
  run store (admit_turn settings now chatId request email) (db, x)
    = (res, (db', x'), tr) ->
  chats db' = chats db /\
  responses db' = responses db /\
  response_references db' = response_references db.
Proof.
  intros H.
  pose proof (run_admit_turn _ _ _ _ _ _ _ H) as [Hgate _].
  apply gate_events_make_gate_calls in Hgate.
  apply (run_invariant store
           (fun w : Db * X =>
              chats (fst w) = chats db /\
              responses (fst w) = responses db /\
              response_references (fst w) = response_references db)
           is_gate_call) in H; auto.
  intros c w Hc (H1 & H2 & H3).
  destruct (gate_calls_keep_responses c w Hc) as (G1 & G2 & G3).
  rewrite G1, G2, G3; auto.
Qed.

(** One step of a run against the store: case analysis on what a service
    answers, or on the value a branch of the handler looks at. *)
Ltac service_one H :=
  match type of H with
  | context [services ?c ?x] =>
      let e := fresh "e" in
      let r := fresh "r" in
      let x1 := fresh "x" in
      let E := fresh "E" in
      destruct (services c x) as [[e|r] x1] eqn:E; simpl in H
  | context [match ?v with Some _ => _ | None => _ end] =>
      destruct v eqn:?; simpl in H
  | context [if ?b then _ else _] => destruct b eqn:?; simpl in H
  end.

(** The [n] most recent rows, put back in chronological order. *)
Lemma recent_turns (rows : list DbResponse) (n : nat) :
  rev (firstn n (rev rows)) = skipn (length rows - n) rows.
Proof. rewrite firstn_rev, rev_involutive; reflexivity. Qed.

Lemma history_of_recent_turns (db dba : Db) chatId (limit : Z) :
  responses dba = responses db ->
  build_conversation_history
    (get_responses_by_chat_id dba chatId limit 0 "desc") =
  flat_map history_entries
    (skipn (length (responses_of_chat db chatId) - Z.to_nat limit)
       (responses_of_chat db chatId)).
Proof.
  intros Hkeep.
  rewrite build_conversation_history_entries.
  unfold get_responses_by_chat_id, responses_of_chat; rewrite Hkeep; simpl.
  rewrite recent_turns; reflexivity.
Qed.

(** C5: with a non-negative [max_conversation_turns], the history posted
    to the knowledge-graph engine is made of the last
    [max_conversation_turns] earlier responses of the chat (all of them when
    there are fewer), oldest first, each giving a user entry with its query
    followed by an assistant entry with its output; its length is twice the
    minimum of [max_conversation_turns] and the number of earlier
    responses. *)
Theorem conversation_history_is_recent_turns
    settings now uuid4 chatId request email (products : Products * Products)
    db x res w' tr url pd :
  (0 <= max_conversation_turns settings)%Z ->
  run store (create_chat_response settings now uuid4 chatId request email
               products) (db, x) = (res, w', tr) ->
  filter is_qa_call (calls tr) = [PostSearchLocal url pd] ->
  let prior := responses_of_chat db chatId in
  let n := Z.to_nat (max_conversation_turns settings) in
  pd_conversation_history pd =
    flat_map history_entries (skipn (length prior - n) prior) /\
  Z.of_nat (length (pd_conversation_history pd)) =
    (2 * Z.min (max_conversation_turns settings) (Z.of_nat (length prior)))%Z.
Proof.
  intros Hturns H Hqa prior n.
  assert (Hhistory :
            pd_conversation_history pd =
            flat_map history_entries (skipn (length prior - n) prior)).
  { apply run_create_chat_response in H.
    destruct H as (ra & [dba xa] & tra & HA & H).
    pose proof HA as Hkeep; apply admit_turn_keeps_responses in Hkeep.
    destruct Hkeep as (_ & Hkeep & _).
    apply run_admit_turn in HA; destruct HA as [Hgate _].
    apply gate_events_silent in Hgate.
    destruct Hgate as (_ & _ & _ & _ & _ & _ & Hq & _).
    destruct ra as [[cr|l query]|e].
    - destruct H as (_ & _ & ->). rewrite Hq in Hqa; discriminate.
    - destruct H as (trb & HB & ->).
      rewrite calls_app, filter_app, Hq in Hqa; simpl in Hqa.
      unfold answer_turn in HB; simpl in HB.
      repeat service_one HB.
      all: try match type of HB with
             | context [run store ?p ?w0] =>
                 destruct (run store p w0) as [[? ?] ?]
             end.
      all: inversion HB; subst; clear HB; simpl in Hqa; try discriminate.
      all: injection Hqa as _ <-; simpl.
      all: apply history_of_recent_turns; exact Hkeep.
    - destruct H as (_ & _ & ->). rewrite Hq in Hqa; discriminate. }
  split; [exact Hhistory|].
  rewrite Hhistory, length_history_entries, length_skipn.
  subst n; lia.
Qed.

(** After [update_response_rating], the row read back by identifier is the
    old row with the new rating. *)
Lemma get_after_update (rows : list DbResponse) response_id row
    (v : option RatingValue) :
  find (fun r => String.eqb (r_id r) response_id) rows = Some row ->
  find (fun r => String.eqb (r_id r) response_id)
       (map (fun r0 => if String.eqb (r_id r0) response_id
                       then set_rating r0 v else r0) rows)
  = Some (set_rating row v).
Proof.
  induction rows as [|r rows IH]; simpl; [discriminate|].
  destruct (String.eqb (r_id r) response_id) eqn:E; simpl; rewrite E.
  - intros H; inversion H; subst; reflexivity.
  - exact IH.
Qed.

Lemma erase_after_update (rows : list DbResponse) response_id
    (v : option RatingValue) :
  map erase_rating
      (map (fun r0 => if String.eqb (r_id r0) response_id
                      then set_rating r0 v else r0) rows)
  = map erase_rating rows.
Proof.
  rewrite map_map. apply map_ext. intros r.
  destruct (String.eqb (r_id r) response_id); reflexivity.
Qed.

(** What [update_response_rating] does to a store that has the row. *)
Lemma update_existing (db : Db) response_id row (v : option RatingValue) :
  get_response_by_id db response_id = Some row ->
  exists db1,
    update_response_rating db response_id v = (Some (set_rating row v), db1) /\
    get_response_by_id db1 response_id = Some (set_rating row v) /\
    get_user_by_email db1 = get_user_by_email db /\
    validate_chat_existence_access db1 = validate_chat_existence_access db /\
    content_of db1 = content_of db.
Proof.
  intros Hrow. unfold update_response_rating. rewrite Hrow.
  eexists; split; [reflexivity|].
  unfold get_response_by_id in *; simpl.
  split; [apply get_after_update; exact Hrow|].
  split; [reflexivity|]. split; [reflexivity|].
  unfold content_of; simpl. rewrite erase_after_update; reflexivity.
Qed.

(** Runs a rating handler against the store, using the lookups at hand. *)
Ltac rating_run :=
  unfold create_rating, update_rating, delete_rating, get_rating,
    get_meta_user_id, rating_value_of;
  simpl;
  repeat match goal with
         | Hx : ?l = _ |- context [?l] => rewrite Hx; simpl
         end.

(** C7: for a caller who owns the chat and a response that exists,
    [create_rating] with value [v] returns [v] and a following [get_rating]
    returns [v]; [delete_rating] then succeeds and a following [get_rating]
    returns the null rating; [get_rating] leaves the store as it is, and
    after each write the store holds the same users, chats, references and
    responses up to their ratings. *)
Theorem rating_set_get_clear_get
    (db : Db) (x : X) chatId responseId email u row (v : RatingValue) :
  get_user_by_email db email = Some u ->
  validate_chat_existence_access db chatId (meta_user_id u) = inr tt ->
  get_response_by_id db responseId = Some row ->
  exists db1 db2,
    outcome_of (run store (create_rating chatId responseId
                             {| rating := Some v |} email) (db, x))
      = Returned {| rating := Some v |} /\
    state_of (run store (create_rating chatId responseId
                           {| rating := Some v |} email) (db, x))
      = (db1, x) /\
    outcome_of (run store (get_rating chatId responseId email) (db1, x))
      = Returned {| rating := Some v |} /\
    outcome_of (run store (delete_rating chatId responseId email) (db1, x))
      = Returned tt /\
    state_of (run store (delete_rating chatId responseId email) (db1, x))
      = (db2, x) /\
    outcome_of (run store (get_rating chatId responseId email) (db2, x))
      = Returned {| rating := None |} /\
    state_of (run store (get_rating chatId responseId email) (db1, x))
      = (db1, x) /\
    content_of db1 = content_of db /\
    content_of db2 = content_of db.
Proof.
  intros Huser Hchat Hrow.
  destruct (@update_existing db responseId row (Some v) Hrow)
    as (db1 & Hup1 & Hrow1 & Huser1 & Hchat1 & Hcontent1).
  destruct (@update_existing db1 responseId _ None Hrow1)
    as (db2 & Hup2 & Hrow2 & Huser2 & Hchat2 & Hcontent2).
  assert (Hu1 : get_user_by_email db1 email = Some u) by (rewrite Huser1; auto).
  assert (Hc1 : validate_chat_existence_access db1 chatId (meta_user_id u)
                = inr tt) by (rewrite Hchat1; auto).
  assert (Hu2 : get_user_by_email db2 email = Some u)
    by (rewrite Huser2, Huser1; auto).
  assert (Hc2 : validate_chat_existence_access db2 chatId (meta_user_id u)
                = inr tt) by (rewrite Hchat2, Hchat1; auto).
  exists db1, db2.
  unfold outcome_of, state_of.
  repeat split; try (rating_run; reflexivity); congruence.
Qed.

(** C9: the rating operations succeed for a caller who owns the chat of
    the path and any response that exists, with no condition relating the
    response to that chat: after the user lookup and the chat validation
    the only call is the lookup or update by [responseId]. *)
Theorem rating_checks_chat_only
    (db : Db) (x : X) chatId responseId email u row (v : RatingValue) :
  get_user_by_email db email = Some u ->
  validate_chat_existence_access db chatId (meta_user_id u) = inr tt ->
  get_response_by_id db responseId = Some row ->
  outcome_of (run store (get_rating chatId responseId email) (db, x))
    = Returned {| rating := r_rating row |} /\
  outcome_of (run store (create_rating chatId responseId
                           {| rating := Some v |} email) (db, x))
    = Returned {| rating := Some v |} /\
  outcome_of (run store (update_rating chatId responseId
                           {| rating := Some v |} email) (db, x))
    = Returned {| rating := Some v |} /\
  outcome_of (run store (delete_rating chatId responseId email) (db, x))
    = Returned tt /\
  calls (trace_of (run store (get_rating chatId responseId email) (db, x)))
    = [GetUserByEmail email;
       ValidateChatExistenceAccess chatId (meta_user_id u);
       GetResponseById responseId] /\
  calls (trace_of (run store (create_rating chatId responseId
                                {| rating := Some v |} email) (db, x)))
    = [GetUserByEmail email;
       ValidateChatExistenceAccess chatId (meta_user_id u);
       UpdateResponseRating responseId (Some v)] /\
  calls (trace_of (run store (update_rating chatId responseId
                                {| rating := Some v |} email) (db, x)))
    = [GetUserByEmail email;
       ValidateChatExistenceAccess chatId (meta_user_id u);
       UpdateResponseRating responseId (Some v)] /\
  calls (trace_of (run store (delete_rating chatId responseId email) (db, x)))
    = [GetUserByEmail email;
       ValidateChatExistenceAccess chatId (meta_user_id u);
       UpdateResponseRating responseId None].
Proof.
  intros Huser Hchat Hrow.
  destruct (@update_existing db responseId row (Some v) Hrow)
    as (db1 & Hup1 & _).
  destruct (@update_existing db responseId row None Hrow)
    as (db2 & Hup2 & _).
  unfold outcome_of, trace_of.
  repeat split; rating_run; try reflexivity.
  all: destruct (r_rating row); reflexivity.
Qed.

Lemma fetched_rows_are_stored (db : Db) chat_id limit offset order_by r :
  In r (get_responses_by_chat_id db chat_id limit offset order_by) ->
  In r (responses db).
Proof.
  unfold get_responses_by_chat_id, responses_of_chat. intros H.
  apply in_firstn in H.
  assert (Hs : forall n (l : list DbResponse), In r (skipn n l) -> In r l).
  { intros n l Hin. rewrite <- (firstn_skipn n l). apply in_or_app; auto. }
  apply Hs in H.
  destruct (String.eqb order_by "desc").
  - apply in_rev, filter_In in H. tauto.
  - apply filter_In in H. tauto.
Qed.

(** C10: a response returned by a short-circuit (unsupported language, or
    guardrail rejection) has the sentinel id, no references and the raw
    user content as input, and the turn leaves the response and reference
    tables as they were; so, unless a row with the sentinel id was already
    stored, no rating operation on the sentinel id returns and no list
    returned by [get_chat_responses] contains a response with that id. *)
Theorem short_circuit_response_is_never_stored
    settings now uuid4 chatId request email (products : Products * Products)
    (db : Db) (x : X) cr db' x' tr :
  run store (create_chat_response settings now uuid4 chatId request email
               products) (db, x) = (Returned cr, (db', x'), tr) ->
  (exists lang,
     detected_source_lang tr = Some lang /\ supported_language lang = false)
  \/ (guardrail_enabled settings = true /\
      exists g, guardrail_verdicts tr = [g] /\ relevant g = false) ->
  cr_id cr = sentinel_id /\
  cr_references cr = [] /\
  cr_input cr = cm_content request /\
  responses db' = responses db /\
  response_references db' = response_references db /\
  (get_response_by_id db sentinel_id = None ->
   (forall chat email2 x2 rating_request,
      (forall rt, outcome_of (run store (get_rating chat sentinel_id email2)
                                (db', x2)) <> Returned rt) /\
      (forall rt, outcome_of (run store (create_rating chat sentinel_id
                                           rating_request email2)
                                (db', x2)) <> Returned rt) /\
      (forall rt, outcome_of (run store (update_rating chat sentinel_id
                                           rating_request email2)
                                (db', x2)) <> Returned rt) /\
      (forall rt, outcome_of (run store (delete_rating chat sentinel_id email2)
                                (db', x2)) <> Returned rt)) /\
   (forall chat limit offset sort email2 x2 l,
      outcome_of (run store (get_chat_responses (to_chat_response db') chat
                               limit offset sort email2) (db', x2))
        = Returned l ->
      Forall (fun c => cr_id c <> sentinel_id) l)).
Proof.
  intros H Hshort.
  apply run_create_chat_response in H.
  destruct H as (ra & [dba xa] & tra & HA & H).
  pose proof HA as Hkeep; apply admit_turn_keeps_responses in Hkeep.
  destruct Hkeep as (_ & Hresponses & Hreferences).
  apply run_admit_turn in HA; destruct HA as [Hgate HA].
  destruct ra as [[cr1|l query]|e].
  - destruct H as (Hcr & Hw & ->).
    inversion Hcr; subst cr1; inversion Hw; subst dba xa; clear Hcr Hw.
    destruct HA as (Hid & _ & Hinput & Hrefs & _).
    repeat (split; [assumption|]).
    intros Hnone.
    assert (Hnone' : get_response_by_id db' sentinel_id = None)
      by (unfold get_response_by_id in *; rewrite Hresponses; exact Hnone).
    split.
    + intros chat email2 x2 rating_request.
      unfold outcome_of, get_rating, create_rating, update_rating,
        delete_rating, get_meta_user_id, rating_value_of,
        update_response_rating; simpl.
      destruct (get_user_by_email db' email2); simpl;
        [|repeat split; discriminate].
      destruct (validate_chat_existence_access db' chat (meta_user_id u));
        simpl; [repeat split; discriminate|].
      destruct (rating rating_request); simpl;
        unfold update_response_rating; rewrite Hnone'; simpl;
        repeat split; discriminate.
    + intros chat limit offset sort email2 x2 rows.
      unfold outcome_of, get_chat_responses, get_meta_user_id; simpl.
      unfold insert_user.
      destruct (find_user db' email2) eqn:Hfind; simpl.
      * unfold get_user_by_email; rewrite Hfind; simpl.
        destruct (validate_chat_existence_access db' chat (meta_user_id u));
          simpl; [discriminate|].
        intros Hl; inversion Hl; subst rows; clear Hl.
        apply Forall_map, Forall_forall. intros r Hr; simpl.
        apply fetched_rows_are_stored in Hr.
        apply (find_none _ _ Hnone') in Hr.
        apply String.eqb_neq; exact Hr.
      * match goal with
        | |- context [validate_chat_existence_access ?d ?c ?i] =>
            destruct (validate_chat_existence_access d c i)
        end; simpl; [discriminate|].
        intros Hl; inversion Hl; subst rows; clear Hl.
        apply Forall_map, Forall_forall. intros r Hr; simpl.
        apply fetched_rows_are_stored in Hr; simpl in Hr.
        apply (find_none _ _ Hnone') in Hr.
        apply String.eqb_neq; exact Hr.
  - destruct H as (trb & _ & ->).
    destruct HA as (t & Ht & Hl & Hsupported & _ & _ & Hguard).
    destruct Hshort as [(lang & Hlang & Hunsupported)|(Hon & g & Hg & Hrel)].
    + pose proof Ht as Hd;
        apply detected_source_lang_app with (trb := trb) in Hd.
      rewrite Hd, Hl in Hlang. injection Hlang as <-. congruence.
    + unfold guardrail_verdicts in *; rewrite flat_map_app in Hg.
      destruct Hguard as [(Hoff & _)|(_ & g0 & Hg0 & Hrel0)]; [congruence|].
      rewrite Hg0 in Hg; simpl in Hg. injection Hg as -> _. congruence.
  - destruct H as (Hcr & _); discriminate Hcr.
Qed.

End DbFacts.

End Facts.

(** ** The theorems at work on the small deployment *)

(** A turn detected as Spanish. *)
Lemma unsupported_language_short_circuits_witness :
  outcome_of (demo_turn false spanish) =
    Returned {| cr_id := sentinel_id;
                cr_createdAt := 7%Z;
                cr_input := cm_content demo_request;
                cr_output := unsupported_language_message;
                cr_references := [] |}
  /\ filter is_response_persistence (calls (trace_of (demo_turn false spanish))) = []
  /\ filter is_qa_call (calls (trace_of (demo_turn false spanish))) = [].
Proof.
  apply (@unsupported_language_short_circuits _ _ _ _ (demo_step spanish)
           (demo_settings false) 7%Z "tmp-id" "C1" demo_request "u@x.com"
           demo_products (demo_db, tt)
           (outcome_of (demo_turn false spanish))
           (state_of (demo_turn false spanish))
           (trace_of (demo_turn false spanish)) (Some "es"));
    vm_compute; reflexivity.
Defined.

(** A turn the guardrail rejects. *)
Lemma guardrail_rejection_short_circuits_witness :
  outcome_of (demo_turn true off_topic) =
    Returned {| cr_id := sentinel_id;
                cr_createdAt := 7%Z;
                cr_input := cm_content demo_request;
                cr_output := "This question is out of scope.";
                cr_references := [] |}
  /\ filter is_response_persistence (calls (trace_of (demo_turn true off_topic))) = []
  /\ filter is_qa_call (calls (trace_of (demo_turn true off_topic))) = [].
Proof.
  apply (@guardrail_rejection_short_circuits _ _ _ _ (demo_step off_topic)
           (demo_settings true) 7%Z "tmp-id" "C1" demo_request "u@x.com"
           demo_products (demo_db, tt)
           (outcome_of (demo_turn true off_topic))
           (state_of (demo_turn true off_topic))
           (trace_of (demo_turn true off_topic))
           {| relevant := false;
              message := Some "This question is out of scope." |}
           "This question is out of scope.");
    vm_compute; reflexivity.
Defined.

(** C3, as the spec states it, fails: on a turn whose scorer raises, the
    Response row is inserted, the scoring call raises, and the handler
    raises that exception instead of returning a ChatResponse. *)
Lemma scoring_failure_fails_the_turn :
  inserted_responses (trace_of (demo_turn false scorer_down)) <> []
  /\ scorings (trace_of (demo_turn false scorer_down)) =
       [inl (PyError "NameError" "evaluate_with_ragas")]
  /\ outcome_of (demo_turn false scorer_down) =
       Raised (PyError "NameError" "evaluate_with_ragas")
  /\ ~ (exists cr, outcome_of (demo_turn false scorer_down) = Returned cr).
Proof.
  split; [vm_compute; discriminate|].
  split; [vm_compute; reflexivity|].
  split; [vm_compute; reflexivity|].
  intros [cr H]; vm_compute in H; discriminate H.
Qed.

(** The same turn, read through the amended statement. *)
Lemma scoring_failure_propagates_witness :
  scorings (trace_of (demo_turn false scorer_down)) =
    [inl (PyError "NameError" "evaluate_with_ragas")]
  /\ exists cr0 robj query output_text payload,
       composed (trace_of (demo_turn false scorer_down)) = [cr0] /\
       inserted_responses (trace_of (demo_turn false scorer_down)) = [robj] /\
       filter is_response_persistence
         (calls (trace_of (demo_turn false scorer_down))) =
         InsertResponse "C1" (cr_input cr0) query output_text payload None
           :: reference_inserts (cr_references cr0) (r_id robj) /\
       filter is_response_persistence
         (failed_calls (trace_of (demo_turn false scorer_down))) = [] /\
       outcome_of (demo_turn false scorer_down) =
         Raised (PyError "NameError" "evaluate_with_ragas").
Proof.
  split; [vm_compute; reflexivity|].
  apply (@scoring_failure_propagates _ _ _ _ (demo_step scorer_down)
           (demo_settings false) 7%Z "tmp-id" "C1" demo_request "u@x.com"
           demo_products (demo_db, tt)
           (outcome_of (demo_turn false scorer_down))
           (state_of (demo_turn false scorer_down))
           (trace_of (demo_turn false scorer_down))
           (inl (PyError "NameError" "evaluate_with_ragas")));
    vm_compute; reflexivity.
Defined.

(** A German turn with two references: one response row, then the two
    reference rows with ordinals 0 and 1. *)
Lemma references_persisted_in_order_witness :
  exists query output_text payload,
    filter is_response_persistence (calls (trace_of (demo_turn false german))) =
      InsertResponse "C1" "What is product X?" query output_text payload None
        :: reference_inserts two_references "row-6" /\
    length (filter is_response_persistence
              (calls (trace_of (demo_turn false german)))) = 3 /\
    forall i,
      nth_error (filter is_response_persistence
                   (calls (trace_of (demo_turn false german)))) (S i) =
      option_map
        (fun reference =>
           InsertResponseReference (ref_id reference) (ref_type reference) i
             "row-6")
        (nth_error two_references i).
Proof.
  apply (@references_persisted_in_order _ _ _ _ (demo_step german)
           (demo_settings false) 7%Z "tmp-id" "C1" demo_request "u@x.com"
           demo_products (demo_db, tt)
           (outcome_of (demo_turn false german))
           (state_of (demo_turn false german))
           (trace_of (demo_turn false german))
           {| cr_id := "tmp-id"; cr_createdAt := 0%Z;
              cr_input := "What is product X?";
              cr_output := "X is a widget.";
              cr_references := two_references |}
           {| r_id := "row-6"; r_chat_id := "C1"; r_createdAt := 6%Z;
              r_user_input := "What is product X?";
              r_query := "en: What is product X?";
              r_output := "de: X is a widget.";
              r_original_response := "{answer, references}";
              r_rating := None |});
    vm_compute; reflexivity.
Defined.

(** The German turn: input and references are the composer's, and the
    translator is called twice; the English turn calls it once. *)
Lemma translation_passes_touch_only_output_witness :
  filter is_translate (calls (trace_of (demo_turn false german))) =
    [Translate "What is product X?" "en"; Translate "X is a widget." "de"]
  /\ filter is_translate (calls (trace_of (demo_turn false english))) =
       [Translate "What is product X?" "en"].
Proof.
  split.
  - apply (@translation_passes_touch_only_output _ _ _ _ (demo_step german)
             (demo_settings false) 7%Z "tmp-id" "C1" demo_request "u@x.com"
             demo_products (demo_db, tt)
             (outcome_of (demo_turn false german))
             (state_of (demo_turn false german))
             (trace_of (demo_turn false german))
             {| cr_id := "tmp-id"; cr_createdAt := 0%Z;
                cr_input := "What is product X?";
                cr_output := "X is a widget.";
                cr_references := two_references |}
             "de");
      vm_compute; reflexivity.
  - apply (@translation_passes_touch_only_output _ _ _ _ (demo_step english)
             (demo_settings false) 7%Z "tmp-id" "C1" demo_request "u@x.com"
             demo_products (demo_db, tt)
             (outcome_of (demo_turn false english))
             (state_of (demo_turn false english))
             (trace_of (demo_turn false english))
             {| cr_id := "tmp-id"; cr_createdAt := 0%Z;
                cr_input := "What is product X?";
                cr_output := "X is a widget.";
                cr_references := two_references |}
             "en");
      vm_compute; reflexivity.
Defined.

(** Faithfulness 0.5 and answer relevance 0.875: the three gauges are set
    and, faithfulness being below 0.8, both low-quality records follow. *)
Lemma scores_exported_and_low_quality_logged_witness :
  exists cr,
    outcome_of (demo_turn false english) = Returned cr /\
    outputs (trace_of (demo_turn false english)) =
      [GaugeSet faithfulness_gauge 0.5%float;
       GaugeSet answer_relevance_gauge 0x1.cp-1%float;
       GaugeSet context_precision_gauge 1%float]
      ++ match s_similarity good_scores with
         | Some x => [GaugeSet similarity_gauge x]
         | None => []
         end
      ++ (if PrimFloat.ltb 0.5%float FAITHFULNESS_THRESHOLD
             || PrimFloat.ltb 0x1.cp-1%float RELEVANCE_THRESHOLD
          then [WarningLowRagasScore 0.5%float 0x1.cp-1%float
                  (cm_content demo_request) (cr_output cr);
                WarningJson {| lq_event := "low_quality_response";
                               lq_question := cm_content demo_request;
                               lq_answer := cr_output cr;
                               lq_faithfulness := 0.5%float;
                               lq_answer_relevance := 0x1.cp-1%float;
                               lq_context := None |}]
          else []) /\
    (existsb is_low_quality_record (outputs (trace_of (demo_turn false english)))
       = true <->
     PrimFloat.ltb 0.5%float FAITHFULNESS_THRESHOLD = true
     \/ PrimFloat.ltb 0x1.cp-1%float RELEVANCE_THRESHOLD = true).
Proof.
  apply (@scores_exported_and_low_quality_logged _ _ _ _ (demo_step english)
           (demo_settings false) 7%Z "tmp-id" "C1" demo_request "u@x.com"
           demo_products (demo_db, tt)
           (outcome_of (demo_turn false english))
           (state_of (demo_turn false english))
           (trace_of (demo_turn false english))
           good_scores 0.5%float 0x1.cp-1%float 1%float);
    vm_compute; reflexivity.
Defined.

(** Chat "C1" has two earlier responses; with one conversation turn
    configured, only the later one is sent, as two entries. *)
Lemma conversation_history_is_recent_turns_witness :
  pd_conversation_history
    {| pd_message := {| msg_role := "assistant";
                        msg_content := "What is product X?" |};
       pd_stream := false;
       pd_temperature := 0.5%float;
       pd_max_tokens := 200%Z;
       pd_conversation_history :=
         [{| msg_role := "user"; msg_content := "And Z?" |};
          {| msg_role := "assistant"; msg_content := "Z is a gizmo." |}] |}
  = flat_map history_entries
      (skipn (length (responses_of_chat demo_db "C1") - Z.to_nat 1)
         (responses_of_chat demo_db "C1"))
  /\ Z.of_nat 2 = (2 * Z.min 1 (Z.of_nat (length (responses_of_chat demo_db "C1"))))%Z.
Proof.
  apply (@conversation_history_is_recent_turns _ _ _ demo_new_id _
           (demo_services english) one_turn_settings 7%Z "tmp-id" "C1"
           demo_request "u@x.com" demo_products demo_db tt
           (outcome_of (run (demo_step english)
              (create_chat_response one_turn_settings 7%Z "tmp-id" "C1"
                 demo_request "u@x.com" demo_products) (demo_db, tt)))
           (state_of (run (demo_step english)
              (create_chat_response one_turn_settings 7%Z "tmp-id" "C1"
                 demo_request "u@x.com" demo_products) (demo_db, tt)))
           (trace_of (run (demo_step english)
              (create_chat_response one_turn_settings 7%Z "tmp-id" "C1"
                 demo_request "u@x.com" demo_products) (demo_db, tt)))
           "http://kg/search/local"
           {| pd_message := {| msg_role := "assistant";
                               msg_content := "What is product X?" |};
              pd_stream := false;
              pd_temperature := 0.5%float;
              pd_max_tokens := 200%Z;
              pd_conversation_history :=
                [{| msg_role := "user"; msg_content := "And Z?" |};
                 {| msg_role := "assistant";
                    msg_content := "Z is a gizmo." |}] |}).
  - vm_compute; discriminate.
  - vm_compute; reflexivity.
  - vm_compute; reflexivity.
Defined.

(** User u@x.com rates response "r-a" of their chat "C1" with 1, reads the
    rating, clears it and reads it again. *)
Lemma rating_set_get_clear_get_witness :
  exists db1 db2,
    outcome_of (run (demo_step english)
                  (create_rating "C1" "r-a" {| rating := Some 1%Z |} "u@x.com")
                  (demo_db, tt))
      = Returned {| rating := Some 1%Z |} /\
    state_of (run (demo_step english)
                (create_rating "C1" "r-a" {| rating := Some 1%Z |} "u@x.com")
                (demo_db, tt))
      = (db1, tt) /\
    outcome_of (run (demo_step english) (get_rating "C1" "r-a" "u@x.com")
                  (db1, tt))
      = Returned {| rating := Some 1%Z |} /\
    outcome_of (run (demo_step english) (delete_rating "C1" "r-a" "u@x.com")
                  (db1, tt))
      = Returned tt /\
    state_of (run (demo_step english) (delete_rating "C1" "r-a" "u@x.com")
                (db1, tt))
      = (db2, tt) /\
    outcome_of (run (demo_step english) (get_rating "C1" "r-a" "u@x.com")
                  (db2, tt))
      = Returned {| rating := None |} /\
    state_of (run (demo_step english) (get_rating "C1" "r-a" "u@x.com")
                (db1, tt))
      = (db1, tt) /\
    content_of db1 = content_of demo_db /\
    content_of db2 = content_of demo_db.
Proof.
  apply (@rating_set_get_clear_get _ _ _ demo_new_id _ (demo_services english)
           demo_db tt "C1" "r-a" "u@x.com"
           {| meta_user_id := "u-1"; user_email := "u@x.com" |}
           (demo_row "r-a" "C1" "What is X?" "X is a widget." 3%Z None) 1%Z);
    vm_compute; reflexivity.
Defined.

(** User u@x.com names their own chat "C1" and reads, sets, overwrites and
    clears the rating of response "r-b", which belongs to chat "C2" of
    user v@x.com. *)
Lemma rating_checks_chat_only_witness :
  r_chat_id (demo_row "r-b" "C2" "What is Y?" "Y is a gadget." 4%Z (Some 1%Z))
    = "C2"
  /\ validate_chat_existence_access demo_db "C2" "u-1"
       = inl (HTTPException 403 "Access denied")
  /\ outcome_of (run (demo_step english) (get_rating "C1" "r-b" "u@x.com")
                   (demo_db, tt))
       = Returned {| rating := Some 1%Z |}
  /\ outcome_of (run (demo_step english)
                   (create_rating "C1" "r-b" {| rating := Some 5%Z |}
                      "u@x.com") (demo_db, tt))
       = Returned {| rating := Some 5%Z |}
  /\ outcome_of (run (demo_step english) (delete_rating "C1" "r-b" "u@x.com")
                   (demo_db, tt))
       = Returned tt.
Proof.
  split; [reflexivity|]. split; [vm_compute; reflexivity|].
  destruct (@rating_checks_chat_only _ _ _ demo_new_id _
              (demo_services english) demo_db tt "C1" "r-b" "u@x.com"
              {| meta_user_id := "u-1"; user_email := "u@x.com" |}
              (demo_row "r-b" "C2" "What is Y?" "Y is a gadget." 4%Z
                 (Some 1%Z)) 5%Z)
    as (Hget & Hcreate & _ & Hdelete & _);
    [vm_compute; reflexivity ..|].
  split; [exact Hget|]. split; [exact Hcreate|exact Hdelete].
Defined.

(** The Spanish turn: the response carries the sentinel id, the response
    table is the one before the turn, and reading the rating of the
    sentinel id afterwards does not return. *)
Lemma short_circuit_response_is_never_stored_witness :
  cr_id {| cr_id := sentinel_id; cr_createdAt := 7%Z;
           cr_input := "What is product X?";
           cr_output := unsupported_language_message;
           cr_references := [] |} = sentinel_id
  /\ responses (fst (state_of (demo_turn false spanish))) = responses demo_db
  /\ response_references (fst (state_of (demo_turn false spanish)))
       = response_references demo_db
  /\ forall rt,
       outcome_of (run (demo_step spanish)
                     (get_rating "C1" sentinel_id "u@x.com")
                     (fst (state_of (demo_turn false spanish)), tt))
       <> Returned rt.
Proof.
  destruct (@short_circuit_response_is_never_stored _ _ _ demo_new_id _
              (demo_services spanish) (demo_settings false) 7%Z "tmp-id" "C1"
              demo_request "u@x.com" demo_products demo_db tt
              {| cr_id := sentinel_id; cr_createdAt := 7%Z;
                 cr_input := "What is product X?";
                 cr_output := unsupported_language_message;
                 cr_references := [] |}
              (fst (state_of (demo_turn false spanish)))
              (snd (state_of (demo_turn false spanish)))
              (trace_of (demo_turn false spanish)))
    as (Hid & _ & _ & Hresponses & Hreferences & Hlater).
  - vm_compute; reflexivity.
  - left; exists (Some "es"); split; vm_compute; reflexivity.
  - split; [exact Hid|]. split; [exact Hresponses|].
    split; [exact Hreferences|].
    destruct Hlater as [Hrating _]; [vm_compute; reflexivity|].
    destruct (Hrating "C1" "u@x.com" tt {| rating := None |}) as [Hget _].
    exact Hget.
Defined.
